(** * Cluster-registration script ([work in progress/API_req.py])

    A shallow embedding of the script and of the library calls it makes
    ([uuid.uuid4], [json.dumps], [requests.post], [Response.json], [print]),
    followed by the properties of the script that the specification states.

    The script is a straight line of statements; it is embedded as a program
    in a small trace-and-exception monad run against a [world] that supplies
    what the script cannot decide itself: the bytes [os.urandom] returns and
    what the call of [requests.post] comes to.  The libraries are taken at
    their call boundary: what [requests] does on the wire between the call
    and its return (redirects it follows, the way it reads a body) is the
    world's, not the script's. *)

From Stdlib Require Import Strings.String Strings.Ascii Strings.Byte.
From Stdlib Require Import DecimalString.
From Stdlib Require Import ZArith NArith List Bool Lia.
Import ListNotations.
Local Open Scope Z_scope.
Set Warnings "-register-all".

(* ================================================================= *)
(** ** Python strings *)

(** A Python [str] is a sequence of Unicode code points. *)
Definition str := list N.

(** A literal of the script, as a [str]. *)
Definition lit (s : string) : str := map N_of_ascii (list_ascii_of_string s).

Fixpoint str_eqb (a b : str) : bool :=
  match a, b with
  | [], [] => true
  | x :: a', y :: b' => (x =? y)%N && str_eqb a' b'
  | _, _ => false
  end.

(** [sep.join(parts)] *)
Fixpoint join (sep : str) (parts : list str) : str :=
  match parts with
  | [] => []
  | [p] => p
  | p :: rest => p ++ sep ++ join sep rest
  end.

(** Code points the definitions below name. *)
Definition c_quote : N := 34.      (* the double quote *)
Definition c_backslash : N := 92.
Definition c_dash : N := 45.
Definition c_zero : N := 48.

(* ================================================================= *)
(** ** Hexadecimal formatting: ['%x'], ['%04x'], ['%032x'] *)

Definition hexdigits : str := lit "0123456789abcdef".

Definition hexdigit (d : Z) : N := nth (Z.to_nat d) hexdigits c_zero.

(** The [i]-th group of four bits of [n], counted from the least
    significant one. *)
Definition nibble (n : Z) (i : nat) : Z :=
  Z.land (Z.shiftr n (4 * Z.of_nat i)) 15.

(** Number of hexadecimal digits of a non-negative [n] (one for [0]). *)
Definition hex_len (n : Z) : nat :=
  if n =? 0 then 1%nat else Z.to_nat (Z.log2 n / 4 + 1).

(** ['%x' % n] for [0 <= n]. *)
Definition format_x (n : Z) : str :=
  map (fun i => hexdigit (nibble n i)) (rev (seq 0 (hex_len n))).

(** Left padding with zeros to width [w], as the [0w] flag does. *)
Definition zfill (w : nat) (s : str) : str :=
  repeat c_zero (w - length s) ++ s.

Definition format_04x (n : Z) : str := zfill 4 (format_x n).
Definition format_032x (n : Z) : str := zfill 32 (format_x n).

(** [str(n)] for an integer. *)
Definition str_of_int (n : Z) : str :=
  lit (NilZero.string_of_int (Z.to_int n)).

(* ================================================================= *)
(** ** Exceptions and results *)

Inductive exn :=
| ValueError         (* raised by [uuid.UUID] on a malformed argument *)
| ConnectionError    (* raised by [requests.post]: endpoint unreachable *)
| JSONDecodeError    (* raised by [Response.json]: the decoder rejects the body *)
| RequestException (name : string).
                     (* raised by [requests.post]: any other failure of the
                        exchange, by the name of its class *)

Inductive result (A : Type) :=
| Ok (a : A)
| Raise (e : exn).
Arguments Ok {A} a.
Arguments Raise {A} e.

(* ================================================================= *)
(** ** [uuid]: version-4 identifiers *)

Module uuid.

(** [int.from_bytes(bs, 'big')] *)
Definition from_bytes (bs : list byte) : Z :=
  fold_left (fun acc b => acc * 256 + Z.of_N (Byte.to_N b)) bs 0.

(** The stamping of the variant and of the version in [UUID.__init__]:
<<
    int &= ~(0xc000 << 48);  int |= 0x8000 << 48      # variant RFC 4122
    int &= ~(0xf000 << 64);  int |= version << 76     # version
>> *)
Definition set_version (int version : Z) : Z :=
  let int := Z.land int (Z.lnot (Z.shiftl 0xc000 48)) in
  let int := Z.lor int (Z.shiftl 0x8000 48) in
  let int := Z.land int (Z.lnot (Z.shiftl 0xf000 64)) in
  let int := Z.lor int (Z.shiftl version 76) in
  int.

(** [UUID(bytes=bs, version=version)]: the 128-bit integer the object holds.
<<
    if len(bytes) != 16: raise ValueError
    int = int_.from_bytes(bytes)
    if not 1 <= version <= 5: raise ValueError
    (the stamping above)
>> *)
Definition UUID (bs : list byte) (version : Z) : result Z :=
  if negb (Nat.eqb (length bs) 16) then Raise ValueError
  else
    let int := from_bytes bs in
    if negb ((1 <=? version) && (version <=? 5)) then Raise ValueError
    else Ok (set_version int version).

(** The bits [set_version] overwrites: 62 and 63 (the variant), 76 to 79
    (the version).  [free_bits r] is [r] with these six bits cleared, that
    is, the 122 bits of [r] that reach the identifier. *)
Definition stamped_bits : Z := Z.lor (Z.shiftl 0xc000 48) (Z.shiftl 0xf000 64).
Definition free_bits (r : Z) : Z := Z.land r (Z.lnot stamped_bits).

Definition is_stamped (n : Z) : bool :=
  (62 <=? n) && (n <=? 63) || (76 <=? n) && (n <=? 79).

(** [hex\[a:b\]] on a string. *)
Definition slice (a b : nat) (s : str) : str := firstn (b - a) (skipn a s).

(** [UUID.__str__]:
<<
    hex = '%032x' % self.int
    return '%s-%s-%s-%s-%s' % (hex[:8], hex[8:12], hex[12:16], hex[16:20], hex[20:])
>> *)
Definition to_str (int : Z) : str :=
  let hex := format_032x int in
  firstn 8 hex ++ c_dash :: slice 8 12 hex ++ c_dash :: slice 12 16 hex
    ++ c_dash :: slice 16 20 hex ++ c_dash :: skipn 20 hex.

(** The shape of [to_str]: where each hexadecimal digit lands.  [digit i]
    is the digit of weight [16^i]. *)
Definition layout (digit : nat -> N) : str :=
  map digit [31; 30; 29; 28; 27; 26; 25; 24]%nat ++ c_dash ::
  map digit [23; 22; 21; 20]%nat ++ c_dash ::
  map digit [19; 18; 17; 16]%nat ++ c_dash ::
  map digit [15; 14; 13; 12]%nat ++ c_dash ::
  map digit [11; 10; 9; 8; 7; 6; 5; 4; 3; 2; 1; 0]%nat.

(** Syntax of the textual form: 36 characters, [8-4-4-4-12] lower-case
    hexadecimal digits separated by dashes. *)
Definition is_hex (c : N) : bool :=
  ((48 <=? c) && (c <=? 57) || (97 <=? c) && (c <=? 102))%N.

Fixpoint groups_ok (widths : list nat) (s : str) : bool :=
  match widths with
  | [] => false
  | [w] => Nat.eqb (length s) w && forallb is_hex s
  | w :: rest =>
      forallb is_hex (firstn w s) && Nat.eqb (length (firstn w s)) w
      && match skipn w s with
         | c :: s' => N.eqb c c_dash && groups_ok rest s'
         | [] => false
         end
  end.

Definition is_uuid_syntax (s : str) : bool := groups_ok [8; 4; 4; 4; 12]%nat s.

(** The version digit (the 15th character) and the variant digit (the 20th). *)
Definition version_digit (s : str) : N := nth 14 s 0%N.
Definition variant_digit (s : str) : N := nth 19 s 0%N.

End uuid.

(* ================================================================= *)
(** ** Python values that JSON text denotes *)

(** A [float] is carried as the literal it was read from: floating-point
    arithmetic is outside this development, and the script builds none. *)
Inductive pyval :=
| PyNone
| PyBool (b : bool)
| PyInt (n : Z)
| PyFloat (lexeme : str)
| PyStr (s : str)
| PyList (items : list pyval)
| PyDict (pairs : list (str * pyval)).

(** A [dict] keeps its keys in insertion order; [d\[k\] = v] replaces the
    value of a key already present and appends a new key otherwise. *)
Fixpoint dict_get {V} (d : list (str * V)) (k : str) : option V :=
  match d with
  | [] => None
  | (k', v) :: rest => if str_eqb k' k then Some v else dict_get rest k
  end.

Fixpoint dict_set {V} (d : list (str * V)) (k : str) (v : V) : list (str * V) :=
  match d with
  | [] => [(k, v)]
  | (k', v') :: rest =>
      if str_eqb k' k then (k', v) :: rest else (k', v') :: dict_set rest k v
  end.

Definition keys {V} (d : list (str * V)) : list str := map fst d.

(** [d] without the key [k]. *)
Fixpoint dict_del {V} (d : list (str * V)) (k : str) : list (str * V) :=
  match d with
  | [] => []
  | (k', v) :: rest =>
      if str_eqb k' k then rest else (k', v) :: dict_del rest k
  end.

(** [v\[k\]] on a value that is a [dict]. *)
Definition item (v : pyval) (k : str) : option pyval :=
  match v with
  | PyDict d => dict_get d k
  | _ => None
  end.

(* ================================================================= *)
(** ** [json]: the encoder and the decoder *)

Module json.

(** *** [json.dumps] with its defaults
    ([ensure_ascii=True], separators [', '] and [': ']). *)

(** One character of a string, as [py_encode_basestring_ascii] writes it. *)
Definition escape_char (c : N) : str :=
  (if c =? c_backslash then [c_backslash; c_backslash]
   else if c =? c_quote then [c_backslash; c_quote]
   else if c =? 8 then c_backslash :: lit "b"
   else if c =? 12 then c_backslash :: lit "f"
   else if c =? 10 then c_backslash :: lit "n"
   else if c =? 13 then c_backslash :: lit "r"
   else if c =? 9 then c_backslash :: lit "t"
   else if (32 <=? c) && (c <=? 126) then [c]
   else if c <? 0x10000 then
     c_backslash :: lit "u" ++ format_04x (Z.of_N c)
   else
     let n := c - 0x10000 in
     let s1 := N.lor 0xd800 (N.land (N.shiftr n 10) 0x3ff) in
     let s2 := N.lor 0xdc00 (N.land n 0x3ff) in
     c_backslash :: lit "u" ++ format_04x (Z.of_N s1)
       ++ c_backslash :: lit "u" ++ format_04x (Z.of_N s2))%N.

(** The characters the encoder copies as they are: printable ASCII other
    than the quote and the backslash. *)
Definition is_plain (c : N) : bool :=
  ((32 <=? c) && (c <=? 126) && negb (c =? 34) && negb (c =? 92))%N.

Definition encode_basestring_ascii (s : str) : str :=
  c_quote :: flat_map escape_char s ++ [c_quote].

Fixpoint dumps (v : pyval) : str :=
  match v with
  | PyNone => lit "null"
  | PyBool true => lit "true"
  | PyBool false => lit "false"
  | PyInt n => str_of_int n
  | PyFloat lexeme => lexeme
  | PyStr s => encode_basestring_ascii s
  | PyList items =>
      lit "[" ++ join (lit ", ") (map dumps items) ++ lit "]"
  | PyDict pairs =>
      lit "{"
        ++ join (lit ", ")
             (map (fun kv => encode_basestring_ascii (fst kv)
                               ++ lit ": " ++ dumps (snd kv)) pairs)
        ++ lit "}"
  end.

(** *** [json.loads]

    The decoder of CPython (the scanner of [json.decoder] and its C
    accelerator) is a recursive descent over the text.  It is embedded as
    a one-pass machine that accepts the same texts and builds the same
    values: a [mode] that says what the scanner is in the middle of, and a
    stack of the containers that are still open.  The machine reads each
    character once, so it is total and needs no fuel.  Python's resource limits (the
    recursion limit on nesting, the limit on the digits of an integer) are
    not modelled. *)

Inductive frame :=
| FArr (items : list pyval)                   (* in [\[ ... ], items so far *)
| FObjK (pairs : list (str * pyval))          (* in [{ ... }], at a key *)
| FObjV (pairs : list (str * pyval)) (key : str). (* in [{ ... }], at a value *)

Inductive numstate :=
| NMinus | NZero | NInt | NFrac0 | NFrac | NExp0 | NExpSign | NExp.

Inductive strstate :=
| SChars
| SEsc
| SHex (todo : nat) (acc : N).

Inductive mode :=
| MValue (may_close : bool)  (* before a value; [\]] allowed right after [\[] *)
| MKey (may_close : bool)    (* before a key; [}] allowed right after [{] *)
| MColon                     (* between a key and its value *)
| MAfter                     (* after an item of a container *)
| MString (buf : str) (hs : option N) (st : strstate)
| MNumber (lexeme : str) (st : numstate)
| MLiteral (rest : str) (v : pyval)
| MDone (v : pyval).         (* after the document *)

Definition state := (mode * list frame)%type.

Definition is_ws (c : N) : bool :=
  ((c =? 32) || (c =? 9) || (c =? 10) || (c =? 13))%N.

Definition is_digit (c : N) : bool := ((48 <=? c) && (c <=? 57))%N.

Definition hex_value (c : N) : option N :=
  (if (48 <=? c) && (c <=? 57) then Some (c - 48)
   else if (97 <=? c) && (c <=? 102) then Some (c - 87)
   else if (65 <=? c) && (c <=? 70) then Some (c - 55)
   else None)%N.

Definition is_high_surrogate (c : N) : bool := ((0xd800 <=? c) && (c <=? 0xdbff))%N.
Definition is_low_surrogate (c : N) : bool := ((0xdc00 <=? c) && (c <=? 0xdfff))%N.
Definition join_surrogates (h l : N) : N :=
  (0x10000 + N.lor (N.shiftl (h - 0xd800) 10) (l - 0xdc00))%N.

(** The character a backslash escape other than [\u] stands for. *)
Definition unescape (c : N) : option N :=
  (if c =? 34 then Some 34        (* quote *)
   else if c =? 92 then Some 92   (* backslash *)
   else if c =? 47 then Some 47   (* slash *)
   else if c =? 98 then Some 8    (* b: backspace *)
   else if c =? 102 then Some 12  (* f: form feed *)
   else if c =? 110 then Some 10  (* n: line feed *)
   else if c =? 114 then Some 13  (* r: carriage return *)
   else if c =? 116 then Some 9   (* t: tab *)
   else None)%N.

(** A value is complete: hand it to the innermost open container. *)
Definition deliver (v : pyval) (stack : list frame) : option state :=
  match stack with
  | [] => Some (MDone v, [])
  | FArr items :: up => Some (MAfter, FArr (items ++ [v]) :: up)
  | FObjV pairs key :: up => Some (MAfter, FObjK (dict_set pairs key v) :: up)
  | FObjK _ :: _ => None
  end.

(** A string is complete: it is a key when the innermost container waits
    for one, and a value otherwise. *)
Definition end_string (s : str) (stack : list frame) : option state :=
  match stack with
  | FObjK pairs :: up => Some (MColon, FObjV pairs s :: up)
  | _ => deliver (PyStr s) stack
  end.

(** A high surrogate read from [\uXXXX] waits in [hs] for its low half;
    when none follows it is kept as it is. *)
Definition flush (buf : str) (hs : option N) : str :=
  match hs with
  | Some h => buf ++ [h]
  | None => buf
  end.

Definition escape_done (buf : str) (hs : option N) (uni : N) : mode :=
  match hs with
  | Some h =>
      if is_low_surrogate uni
      then MString (buf ++ [join_surrogates h uni]) None SChars
      else if is_high_surrogate uni
           then MString (buf ++ [h]) (Some uni) SChars
           else MString (buf ++ [h; uni]) None SChars
  | None =>
      if is_high_surrogate uni
      then MString buf (Some uni) SChars
      else MString (buf ++ [uni]) None SChars
  end.

Definition string_step (buf : str) (hs : option N) (st : strstate)
    (stack : list frame) (c : N) : option state :=
  match st with
  | SChars =>
      if (c =? c_backslash)%N then Some (MString buf hs SEsc, stack)
      else
        let buf := flush buf hs in
        if (c =? c_quote)%N then end_string buf stack
        else if (c <? 32)%N then None
        else Some (MString (buf ++ [c]) None SChars, stack)
  | SEsc =>
      if (c =? 117)%N (* u *) then Some (MString buf hs (SHex 4 0), stack)
      else
        match unescape c with
        | Some ch => Some (MString (flush buf hs ++ [ch]) None SChars, stack)
        | None => None
        end
  | SHex todo acc =>
      match hex_value c with
      | None => None
      | Some d =>
          let acc := (acc * 16 + d)%N in
          match todo with
          | S (S n) => Some (MString buf hs (SHex (S n) acc), stack)
          | _ => Some (escape_done buf hs acc, stack)
          end
      end
  end.

(** The number grammar: an optional minus sign; [0], or a digit from 1 to 9
    and then any digits; optionally a dot and one or more digits; optionally
    [e] or [E], an optional sign and one or more digits. *)
Definition number_step (st : numstate) (c : N) : option numstate :=
  let digit := is_digit c in
  let dot := (c =? 46)%N in
  let e := ((c =? 101) || (c =? 69))%N in
  let sign := ((c =? 43) || (c =? 45))%N in
  match st with
  | NMinus => if (c =? 48)%N then Some NZero else if digit then Some NInt else None
  | NZero => if dot then Some NFrac0 else if e then Some NExp0 else None
  | NInt => if digit then Some NInt else if dot then Some NFrac0
            else if e then Some NExp0 else None
  | NFrac0 => if digit then Some NFrac else None
  | NFrac => if digit then Some NFrac else if e then Some NExp0 else None
  | NExp0 => if sign then Some NExpSign else if digit then Some NExp else None
  | NExpSign => if digit then Some NExp else None
  | NExp => if digit then Some NExp else None
  end.

(** [int(lexeme)] for an optional minus sign followed by digits. *)
Definition int_of_lexeme (lexeme : str) : Z :=
  let digits (s : str) := fold_left (fun acc c => acc * 10 + Z.of_N (c - 48)) s 0 in
  match lexeme with
  | c :: rest => if (c =? c_dash)%N then - digits rest else digits lexeme
  | [] => 0
  end.

Definition number_value (lexeme : str) (st : numstate) : option pyval :=
  match st with
  | NZero | NInt => Some (PyInt (int_of_lexeme lexeme))
  | NFrac | NExp => Some (PyFloat lexeme)
  | _ => None
  end.

(** What may follow a complete value. *)
Definition after_step (m : mode) (stack : list frame) (c : N) : option state :=
  match m with
  | MDone v => if is_ws c then Some (MDone v, stack) else None
  | MAfter =>
      if is_ws c then Some (MAfter, stack)
      else
        match stack with
        | FArr items :: up =>
            if (c =? 44)%N then Some (MValue false, stack)
            else if (c =? 93)%N then deliver (PyList items) up
            else None
        | FObjK pairs :: up =>
            if (c =? 44)%N then Some (MKey false, stack)
            else if (c =? 125)%N then deliver (PyDict pairs) up
            else None
        | _ => None
        end
  | _ => None
  end.

Definition value_step (may_close : bool) (stack : list frame) (c : N)
    : option state :=
  (if is_ws c then Some (MValue may_close, stack)
   else if c =? c_quote then Some (MString [] None SChars, stack)
   else if c =? 123 then Some (MKey true, FObjK [] :: stack)
   else if c =? 91 then Some (MValue true, FArr [] :: stack)
   else if c =? 93 then
     match may_close, stack with
     | true, FArr items :: up => deliver (PyList items) up
     | _, _ => None
     end
   else if c =? 110 then Some (MLiteral (lit "ull") PyNone, stack)
   else if c =? 116 then Some (MLiteral (lit "rue") (PyBool true), stack)
   else if c =? 102 then Some (MLiteral (lit "alse") (PyBool false), stack)
   else if c =? 78 then Some (MLiteral (lit "aN") (PyFloat (lit "NaN")), stack)
   else if c =? 73 then
     Some (MLiteral (lit "nfinity") (PyFloat (lit "Infinity")), stack)
   else if c =? c_dash then Some (MNumber [c] NMinus, stack)
   else if c =? 48 then Some (MNumber [c] NZero, stack)
   else if is_digit c then Some (MNumber [c] NInt, stack)
   else None)%N.

Definition step (st : state) (c : N) : option state :=
  let (m, stack) := st in
  match m with
  | MValue may_close => value_step may_close stack c
  | MKey may_close =>
      if is_ws c then Some (m, stack)
      else if (c =? c_quote)%N then Some (MString [] None SChars, stack)
      else if (c =? 125)%N then
        match may_close, stack with
        | true, FObjK pairs :: up => deliver (PyDict pairs) up
        | _, _ => None
        end
      else None
  | MColon =>
      if is_ws c then Some (m, stack)
      else if (c =? 58)%N then Some (MValue false, stack)
      else None
  | MAfter | MDone _ => after_step m stack c
  | MString buf hs st => string_step buf hs st stack c
  | MNumber lexeme st =>
      match number_step st c with
      | Some st' => Some (MNumber (lexeme ++ [c]) st', stack)
      | None =>
          match st, number_value lexeme st with
          | NMinus, _ =>
              if (c =? 73)%N
              then Some (MLiteral (lit "nfinity") (PyFloat (lit "-Infinity")), stack)
              else None
          | _, Some v =>
              match deliver v stack with
              | Some (m', stack') => after_step m' stack' c
              | None => None
              end
          | _, None => None
          end
      end
  | MLiteral rest v =>
      match rest with
      | r :: rest' =>
          if (c =? r)%N
          then match rest' with
               | [] => deliver v stack
               | _ => Some (MLiteral rest' v, stack)
               end
          else None
      | [] => None
      end
  end.

Fixpoint run (st : state) (s : str) : option state :=
  match s with
  | [] => Some st
  | c :: s' =>
      match step st c with
      | Some st' => run st' s'
      | None => None
      end
  end.

(** At the end of the text the document must be complete. *)
Definition finish (st : state) : option pyval :=
  match st with
  | (MDone v, []) => Some v
  | (MNumber lexeme ns, []) => number_value lexeme ns
  | _ => None
  end.

(** [json.loads(s)]; [None] stands for [JSONDecodeError]. *)
Definition loads (s : str) : option pyval :=
  match run (MValue false, []) s with
  | Some st => finish st
  | None => None
  end.

End json.

(* ================================================================= *)
(** ** The world, the trace and the program monad *)

(** The request a call of [requests.post] starts with.  The body is the
    text of the request; it is ASCII (see [json.dumps]), so the text and
    its UTF-8 encoding coincide. *)
Record request := {
  req_url : str;
  req_content_type : str;
  req_body : str
}.

(** What a call of [requests.post] comes to, seen from the script.

    - [Unreachable]: no connection could be made (no listener, no route, no
      name); the call raises [ConnectionError].
    - [Replied status text]: the call returned a response.  [status] is its
      [status_code] and [text] is its body as [Response.json] decodes it.
      The response is the one the call returns: the last one, when the
      library followed redirects; and [text] is what the client read: it is
      empty for a 204 or a 304, whose body the client does not read.
    - [Failed name]: the exchange failed in another way (a timeout, a
      transfer that broke off, a malformed status line, too many redirects);
      the call raises the exception of class [name]. *)
Inductive reply :=
| Unreachable
| Replied (status : Z) (text : str)
| Failed (name : string).

(** Everything a run can depend on.  The command line and the environment
    are part of it: the script reads neither. *)
Record world := {
  argv : list str;                   (* the command line of the process *)
  environ : list (str * str);        (* its environment variables *)
  entropy : nat -> byte;             (* the bytes of the system's random source *)
  endpoint : request -> reply        (* the remote collaborator, through [requests] *)
}.

(** What an observer of the script sees, in order.  [EPrint o] is
    [print(o)]: the text written to standard output is [str(o)] and a
    newline.  [EPost r] is the call of [requests.post]: [r] is the request it
    starts with, as the script passed it.  What the library sends after
    that inside the same call is not the script's and is not traced. *)
Inductive event :=
| EUrandom (bytes : list byte)        (* [os.urandom] returned [bytes] *)
| EPrint (o : pyval)
| EPost (r : request)                 (* [requests.post] was called with [r] *)
| EReply (status : Z) (text : str).   (* the call returned this response *)

(** A program reads the world, appends to the trace, and either returns a
    value or raises. *)
Definition prog (A : Type) : Type := world -> list event * result A.

Definition ret {A} (a : A) : prog A := fun _ => ([], Ok a).

Definition bind {A B} (c : prog A) (k : A -> prog B) : prog B :=
  fun w =>
    match c w with
    | (t, Ok a) => let (t', r) := k a w in (t ++ t', r)
    | (t, Raise e) => (t, Raise e)
    end.

Definition raise {A} (e : exn) : prog A := fun _ => ([], Raise e).
Definition emit (e : event) : prog unit := fun _ => ([e], Ok tt).
Definition ask : prog world := fun w => ([], Ok w).
Definition lift {A} (r : result A) : prog A := fun _ => ([], r).

Notation "x <- c ;; k" := (bind c (fun x => k))
  (at level 61, c at next level, right associativity).
Notation "c ;; k" := (bind c (fun _ => k))
  (at level 61, right associativity).

(** [print(o)] *)
Definition print (o : pyval) : prog unit := emit (EPrint o).

(** [os.urandom(n)]: the next [n] bytes of the random source.  The script
    draws from it once, so no cursor is threaded. *)
Definition os_urandom (n : nat) : prog (list byte) :=
  w <- ask ;;
  let bs := map (entropy w) (seq 0 n) in
  emit (EUrandom bs) ;;
  ret bs.

(** [uuid.uuid4()]: [UUID(bytes=os.urandom(16), version=4)] *)
Definition uuid4 : prog Z :=
  bs <- os_urandom 16 ;;
  lift (uuid.UUID bs 4).

(* ================================================================= *)
(** ** [requests] *)

Module requests.

(** The response a call returns: its status code, and its body as
    [Response.json] decodes it (the bytes read as the UTF encoding the
    library detects in them, else as [response.text]). *)
Record Response := {
  status_code : Z;
  text : str
}.

(** [requests.post(url, json=obj)], from the call to its return.  The
    request the call starts with has the URL given, the body
    [json.dumps(obj)] and the JSON content type.  The exchange itself is
    the world's: the call returns the response it ends with, or raises. *)
Definition post (url : str) (obj : pyval) : prog Response :=
  let req := {| req_url := url;
                req_content_type := lit "application/json";
                req_body := json.dumps obj |} in
  emit (EPost req) ;;
  w <- ask ;;
  match endpoint w req with
  | Unreachable => raise ConnectionError
  | Replied status text =>
      emit (EReply status text) ;;
      ret {| status_code := status; text := text |}
  | Failed name => raise (RequestException name)
  end.

(** [response.json()]: the decoder on the body; its error is not caught. *)
Definition json (r : Response) : prog pyval :=
  match json.loads (text r) with
  | Some v => ret v
  | None => raise JSONDecodeError
  end.

End requests.

(* ================================================================= *)
(** ** The script *)

Definition url : str := lit "http://your.api.endpoint".

(** The dictionary literal of the script, around the generated identifier. *)
Definition cluster_definition (cluster_uid : str) : pyval :=
  PyDict [
    (lit "cluster", PyDict [
      (lit "name", PyStr (lit "clusterName"));
      (lit "platformType", PyStr (lit "Docker"));
      (lit "agentsList", PyList [
        PyStr (lit "agent1")
      ]);
      (lit "domainName", PyStr (lit "example.org"));
      (lit "creationTime", PyStr (lit "Feb 08 2023 21:02:10"));
      (lit "managedBy", PyStr (lit EmptyString));
      (lit "uid", PyStr cluster_uid)
    ])
  ].

Definition script : prog unit :=
  u <- uuid4 ;;
  let cluster_uid := uuid.to_str u in
  let cluster_definition := cluster_definition cluster_uid in
  let json_data := json.dumps cluster_definition in
  print (PyStr json_data) ;;
  response <- requests.post url cluster_definition ;;
  print (PyInt (requests.status_code response)) ;;
  body <- requests.json response ;;
  print body.

(** A run of the script: its trace, and how the process ends.  [Ok tt] is
    normal completion; [Raise e] is the uncaught exception [e], which ends
    the process with a traceback on standard error. *)
Definition run (w : world) : list event * result unit := script w.

Definition trace (w : world) : list event := fst (run w).
Definition outcome (w : world) : result unit := snd (run w).

(** *** Observations on a trace *)

(** What was written to standard output: the printed objects, in order. *)
Definition stdout (t : list event) : list pyval :=
  flat_map (fun e => match e with EPrint o => [o] | _ => [] end) t.

(** The calls of [requests.post], each by the request it starts with. *)
Definition posts (t : list event) : list request :=
  flat_map (fun e => match e with EPost r => [r] | _ => [] end) t.

(** The draws from the random source. *)
Definition draws (t : list event) : list (list byte) :=
  flat_map (fun e => match e with EUrandom b => [b] | _ => [] end) t.

(** The identifier of a run: [str(uuid.uuid4())] on the bytes it drew. *)
Definition random_bytes (w : world) : list byte := map (entropy w) (seq 0 16).

Definition uid_int (w : world) : Z :=
  match uuid.UUID (random_bytes w) 4 with
  | Ok u => u
  | Raise _ => 0
  end.

Definition cluster_uid (w : world) : str := uuid.to_str (uid_int w).

(** The dictionary a run builds and the request it sends. *)
Definition payload (w : world) : pyval := cluster_definition (cluster_uid w).

Definition sent_request (w : world) : request :=
  {| req_url := url;
     req_content_type := lit "application/json";
     req_body := json.dumps (payload w) |}.

(** The JSON text of the dictionary, around the identifier. *)
Definition quoted (s : string) : str := c_quote :: lit s ++ [c_quote].

Definition body_prefix : str :=
  lit "{" ++ quoted "cluster" ++ lit ": {"
    ++ quoted "name" ++ lit ": " ++ quoted "clusterName" ++ lit ", "
    ++ quoted "platformType" ++ lit ": " ++ quoted "Docker" ++ lit ", "
    ++ quoted "agentsList" ++ lit ": [" ++ quoted "agent1" ++ lit "], "
    ++ quoted "domainName" ++ lit ": " ++ quoted "example.org" ++ lit ", "
    ++ quoted "creationTime" ++ lit ": " ++ quoted "Feb 08 2023 21:02:10" ++ lit ", "
    ++ quoted "managedBy" ++ lit ": " ++ quoted EmptyString ++ lit ", "
    ++ quoted "uid" ++ lit ": " ++ [c_quote].

Definition body_suffix : str := c_quote :: lit "}}".

(** The events every run starts with: the draw, the printed request text,
    the request. *)
Definition opening (w : world) : list event :=
  [EUrandom (random_bytes w);
   EPrint (PyStr (json.dumps (payload w)));
   EPost (sent_request w)].

(** *** Worlds used in examples *)

Definition zero_entropy : nat -> byte := fun _ => x00.

(** The same source with one version bit set: the seventh byte is [0x10]. *)
Definition other_entropy : nat -> byte :=
  fun i => if Nat.eqb i 6 then x10 else x00.

(** A source that differs from [zero_entropy] in a bit that is kept. *)
Definition third_entropy : nat -> byte :=
  fun i => if Nat.eqb i 0 then x01 else x00.

(** An endpoint that sends the request body back with status 200. *)
Definition echo_endpoint : request -> reply :=
  fun r => Replied 200 (req_body r).

Definition dead_endpoint : request -> reply := fun _ => Unreachable.

Definition echo_world : world :=
  {| argv := []; environ := [];
     entropy := zero_entropy; endpoint := echo_endpoint |}.

Definition dead_world : world :=
  {| argv := []; environ := [];
     entropy := zero_entropy; endpoint := dead_endpoint |}.

(** An endpoint that answers 200 with a page that is not JSON. *)
Definition html_endpoint : request -> reply :=
  fun _ => Replied 200 (lit "<html>ok</html>").

Definition html_world : world :=
  {| argv := []; environ := [];
     entropy := zero_entropy; endpoint := html_endpoint |}.

Definition other_world : world :=
  {| argv := []; environ := [];
     entropy := other_entropy; endpoint := echo_endpoint |}.

Definition third_world : world :=
  {| argv := []; environ := [];
     entropy := third_entropy; endpoint := echo_endpoint |}.

(** The keys of the descriptor, in the order of the data model. *)
Definition descriptor_keys : list str :=
  [lit "name"; lit "platformType"; lit "agentsList"; lit "domainName";
   lit "creationTime"; lit "managedBy"; lit "uid"].


(** *** JSON proper

    [json.loads] accepts more than JSON (RFC 8259): it reads the constants
    [NaN], [Infinity] and [-Infinity] as floats.  JSON proper is what the
    same machine accepts when it may not start one of the three: [N] or [I]
    where a value begins, [I] after a minus sign. *)
Definition starts_constant (st : json.state) (c : N) : bool :=
  match fst st with
  | json.MValue _ => ((c =? 78) || (c =? 73))%N
  | json.MNumber _ json.NMinus => (c =? 73)%N
  | _ => false
  end.

Definition strict_step (st : json.state) (c : N) : option json.state :=
  if starts_constant st c then None else json.step st c.

Fixpoint strict_run (st : json.state) (s : str) : option json.state :=
  match s with
  | [] => Some st
  | c :: s' =>
      match strict_step st c with
      | Some st' => strict_run st' s'
      | None => None
      end
  end.

(** [text] is a JSON document. *)
Definition is_valid_json (text : str) : bool :=
  match strict_run (json.MValue false, []) text with
  | Some st =>
      match json.finish st with
      | Some _ => true
      | None => false
      end
  | None => false
  end.



Definition infinity_endpoint : request -> reply :=
  fun _ => Replied 200 (lit "[-Infinity]").

Definition infinity_world : world :=
  {| argv := []; environ := [];
     entropy := zero_entropy; endpoint := infinity_endpoint |}.

(** A run started with an argument and with environment variables that
    name another endpoint. *)
Definition configured_world : world :=
  {| argv := [lit "API_req.py"; lit "http://localhost:9999/register"];
     environ := [(lit "ENDPOINT_URL", lit "http://localhost:9999/register");
                 (lit "URL", lit "http://localhost:9999/register")];
     entropy := zero_entropy; endpoint := echo_endpoint |}.

(** *** Further observations and worlds *)


(** An endpoint that answers 204 with an empty body. *)
Definition blank_endpoint : request -> reply := fun _ => Replied 204 [].

Definition blank_world : world :=
  {| argv := []; environ := [];
     entropy := zero_entropy; endpoint := blank_endpoint |}.

(** An endpoint that echoes the body between a blank line and a newline. *)
Definition padded_endpoint : request -> reply :=
  fun r => Replied 200 ([13; 10]%N ++ req_body r ++ [10]%N).

Definition padded_world : world :=
  {| argv := []; environ := [];
     entropy := zero_entropy; endpoint := padded_endpoint |}.

(** The tail of a literal ([null], [true], ...) that the decoder is in the
    middle of holds no whitespace.  Every state the decoder reaches is so. *)
Definition literal_tail_ok (st : json.state) : Prop :=
  match fst st with
  | json.MLiteral rest _ =>
      forallb (fun c => negb (json.is_ws c)) rest = true
  | _ => True
  end.

(** A Unicode scalar value: a code point that is not half of a surrogate
    pair.  Well-formed text is made of these. *)
Definition is_scalar (c : N) : bool :=
  ((c <? 0x110000) && negb ((0xd800 <=? c) && (c <=? 0xdfff)))%N.

(** Keys that are pairwise different. *)
Fixpoint distinct (ks : list str) : bool :=
  match ks with
  | [] => true
  | k :: rest => negb (existsb (str_eqb k) rest) && distinct rest
  end.

(** The values made of strings, booleans and [None], nested in lists and
    in dictionaries: no number, no lone surrogate in a string or a key, no
    key twice in a dictionary.  The dictionary of the script is one. *)
Fixpoint text_tree (v : pyval) : bool :=
  match v with
  | PyNone | PyBool _ => true
  | PyInt _ | PyFloat _ => false
  | PyStr s => forallb is_scalar s
  | PyList items => forallb text_tree items
  | PyDict pairs =>
      forallb (fun kv => forallb is_scalar (fst kv) && text_tree (snd kv)) pairs
      && distinct (keys pairs)
  end.

(** The decoder is not waiting for a key of the innermost container. *)
Definition not_at_key (stack : list json.frame) : Prop :=
  match stack with
  | json.FObjK _ :: _ => False
  | _ => True
  end.

(** A string with every kind of character the encoder treats apart. *)
Definition mixed_string : str :=
  [34; 92; 47; 8; 12; 10; 13; 9; 0; 31; 32; 65; 126; 127; 233; 8364;
   55295; 57344; 65535; 65536; 128512; 1114111]%N.

(** The value that follows is decoded and handed to the innermost
    container; decoding goes on from there. *)
Definition decodes_in_place (v : pyval) : Prop :=
  forall (may_close : bool) (stack : list json.frame) (rest : str),
    not_at_key stack ->
    json.run (json.MValue may_close, stack) (json.dumps v ++ rest)
    = match json.deliver v stack with
      | Some st => json.run st rest
      | None => None
      end.

(** An endpoint whose reply breaks off after the first hundred characters
    of the echoed body. *)
Definition cut_endpoint : request -> reply :=
  fun r => Replied 200 (firstn 100 (req_body r)).

Definition cut_world : world :=
  {| argv := []; environ := [];
     entropy := zero_entropy; endpoint := cut_endpoint |}.

(** *** Proof automation *)

(** Case analysis on every integer comparison of the goal. *)
Ltac split_cmp :=
  repeat match goal with
         | |- context [(?a <=? ?b)%Z] => destruct (Z.leb_spec a b)
         | |- context [(?a <? ?b)%Z] => destruct (Z.ltb_spec a b)
         | |- context [(?a =? ?b)%Z] => destruct (Z.eqb_spec a b)
         end;
  cbn [andb orb negb]; try reflexivity; try lia;
  repeat rewrite ?andb_true_r, ?andb_false_r, ?orb_true_r, ?orb_false_r;
  try reflexivity.

(* ================================================================= *)
(** * Properties *)

(** ** Hexadecimal digits *)

Lemma hexdigit_is_hex (d : Z) : uuid.is_hex (hexdigit d) = true.
Proof.
  unfold hexdigit. generalize (Z.to_nat d) as n. intro n.
  do 16 (destruct n as [|n]; [reflexivity|]). destruct n; reflexivity.
Qed.

Lemma hex_value_hexdigit (d : Z) :
  0 <= d < 16 -> json.hex_value (hexdigit d) = Some (Z.to_N d).
Proof.
  intros H.
  assert (E : d = 0 \/ d = 1 \/ d = 2 \/ d = 3 \/ d = 4 \/ d = 5 \/ d = 6
              \/ d = 7 \/ d = 8 \/ d = 9 \/ d = 10 \/ d = 11 \/ d = 12
              \/ d = 13 \/ d = 14 \/ d = 15) by lia.
  repeat (destruct E as [E|E]; [subst d; reflexivity|]). subst d; reflexivity.
Qed.

Lemma hexdigit_inj (a b : Z) :
  0 <= a < 16 -> 0 <= b < 16 -> hexdigit a = hexdigit b -> a = b.
Proof.
  intros Ha Hb E.
  pose proof (hex_value_hexdigit a Ha) as Pa.
  pose proof (hex_value_hexdigit b Hb) as Pb.
  rewrite E in Pa. rewrite Pa in Pb. injection Pb as Pb. lia.
Qed.

Lemma nibble_range (n : Z) (i : nat) : 0 <= nibble n i < 16.
Proof.
  unfold nibble. change 15 with (Z.ones 4).
  rewrite Z.land_ones by lia. apply Z.mod_pos_bound. reflexivity.
Qed.

Lemma nibble_bit (n : Z) (i : nat) (k : Z) :
  0 <= k < 4 -> Z.testbit (nibble n i) k = Z.testbit n (4 * Z.of_nat i + k).
Proof.
  intros Hk. unfold nibble. change 15 with (Z.ones 4).
  rewrite Z.land_spec, Z.testbit_ones_nonneg by lia.
  rewrite Z.shiftr_spec by lia.
  replace (k <? 4) with true by (symmetry; apply Z.ltb_lt; lia).
  rewrite andb_true_r. f_equal. lia.
Qed.

Lemma nibble_above (n : Z) (i : nat) :
  0 <= n -> (hex_len n <= i)%nat -> nibble n i = 0.
Proof.
  intros Hn Hi. unfold nibble, hex_len in *.
  destruct (Z.eqb_spec n 0) as [->|Hz].
  - rewrite Z.shiftr_0_l. reflexivity.
  - rewrite Z.shiftr_eq_0; [reflexivity|lia|].
    pose proof (Z.log2_nonneg n) as Hl.
    pose proof (Z.mod_pos_bound (Z.log2 n) 4 ltac:(lia)) as Hm.
    pose proof (Z.div_mod (Z.log2 n) 4 ltac:(lia)) as Hd.
    assert (0 <= Z.log2 n / 4) by (apply Z.div_pos; lia).
    lia.
Qed.

Lemma hex_len_bound (n : Z) (k : nat) :
  0 <= n < 2 ^ (4 * Z.of_nat k) -> (0 < k)%nat -> (hex_len n <= k)%nat.
Proof.
  intros [Hn Hlt] Hk. unfold hex_len.
  destruct (Z.eqb_spec n 0) as [->|Hz]; [lia|].
  assert (Hl : Z.log2 n < 4 * Z.of_nat k) by (apply Z.log2_lt_pow2; lia).
  assert (Z.log2 n / 4 < Z.of_nat k) by (apply Z.div_lt_upper_bound; lia).
  pose proof (Z.log2_nonneg n).
  assert (0 <= Z.log2 n / 4) by (apply Z.div_pos; lia).
  lia.
Qed.

(** Below [16^k], [zfill k (format_x n)] is the [k] digits of [n], the
    leading zeros included. *)
Lemma zfill_format_x (n : Z) (k : nat) :
  0 <= n < 2 ^ (4 * Z.of_nat k) -> (0 < k)%nat ->
  zfill k (format_x n) = map (fun i => hexdigit (nibble n i)) (rev (seq 0 k)).
Proof.
  intros Hn Hk. pose proof (hex_len_bound n k Hn Hk) as Hle.
  unfold zfill, format_x. rewrite length_map, length_rev, length_seq.
  replace k with (hex_len n + (k - hex_len n))%nat at 2 by lia.
  rewrite seq_app, rev_app_distr, map_app. f_equal.
  simpl. generalize (k - hex_len n)%nat as m. intro m.
  assert (G : forall l : list nat,
             (forall i, In i l -> (hex_len n <= i)%nat) ->
             map (fun i => hexdigit (nibble n i)) l = repeat c_zero (length l)).
  { induction l as [|a l IH]; intros Hl; [reflexivity|].
    simpl. rewrite nibble_above; [|lia|apply Hl; left; reflexivity].
    rewrite IH by (intros i Hi; apply Hl; right; exact Hi). reflexivity. }
  rewrite G.
  - rewrite length_rev, length_seq. reflexivity.
  - intros i Hi. apply in_rev, in_seq in Hi. lia.
Qed.

(** ** Bits of a version-4 identifier *)

Lemma small_bits_high (a k n : Z) :
  0 <= a < 2 ^ k -> k <= n -> Z.testbit a n = false.
Proof.
  intros [Ha Hlt] Hn.
  destruct (Z.eq_dec a 0) as [->|Hz]; [apply Z.bits_0|].
  assert (0 <= k) by (destruct (Z.le_gt_cases 0 k); [assumption|];
                      rewrite Z.pow_neg_r in Hlt; lia).
  apply Z.bits_above_log2; [assumption|].
  assert (Z.log2 a < k) by (apply Z.log2_lt_pow2; lia). lia.
Qed.

Lemma bits_high_small (a k : Z) :
  0 <= k -> 0 <= a -> (forall n, k <= n -> Z.testbit a n = false) -> a < 2 ^ k.
Proof.
  intros Hk Ha H.
  assert (E : a = a mod 2 ^ k).
  { apply Z.bits_inj'. intros n Hn.
    destruct (Z.lt_ge_cases n k) as [Hlt|Hge].
    - rewrite Z.mod_pow2_bits_low; [reflexivity|assumption].
    - rewrite Z.mod_pow2_bits_high by lia. apply H. assumption. }
  rewrite E. apply Z.mod_pos_bound. apply Z.pow_pos_nonneg; lia.
Qed.

Lemma stamped_bits_bit (n : Z) :
  0 <= n -> Z.testbit uuid.stamped_bits n = uuid.is_stamped n.
Proof.
  intros Hn. unfold uuid.stamped_bits, uuid.is_stamped.
  change (Z.shiftl 0xc000 48) with (Z.shiftl (Z.ones 2) 62).
  change (Z.shiftl 0xf000 64) with (Z.shiftl (Z.ones 4) 76).
  rewrite Z.lor_spec, !Z.shiftl_spec, !Z.testbit_ones by lia.
  split_cmp.
Qed.

Lemma set_version_bit (r n : Z) :
  0 <= n ->
  Z.testbit (uuid.set_version r 4) n =
    if uuid.is_stamped n then (n =? 63) || (n =? 78) else Z.testbit r n.
Proof.
  intros Hn. unfold uuid.set_version, uuid.is_stamped.
  change (Z.shiftl 0xc000 48) with (Z.shiftl (Z.ones 2) 62).
  change (Z.shiftl 0x8000 48) with (2 ^ 63).
  change (Z.shiftl 0xf000 64) with (Z.shiftl (Z.ones 4) 76).
  change (Z.shiftl 4 76) with (2 ^ 78).
  repeat first [ rewrite Z.lor_spec | rewrite Z.land_spec
               | rewrite Z.lnot_spec by lia | rewrite Z.shiftl_spec by lia
               | rewrite Z.testbit_ones by lia
               | rewrite Z.pow2_bits_eqb by lia ].
  destruct (Z.testbit r n); split_cmp.
Qed.

Lemma free_bits_bit (r n : Z) :
  0 <= n ->
  Z.testbit (uuid.free_bits r) n = Z.testbit r n && negb (uuid.is_stamped n).
Proof.
  intros Hn. unfold uuid.free_bits.
  rewrite Z.land_spec, Z.lnot_spec, stamped_bits_bit by lia. reflexivity.
Qed.

Lemma set_version_range (r : Z) :
  0 <= r < 2 ^ 128 -> 0 <= uuid.set_version r 4 < 2 ^ 128.
Proof.
  intros Hr. assert (Hn : 0 <= uuid.set_version r 4).
  { unfold uuid.set_version.
    apply Z.lor_nonneg; split; [|apply Z.shiftl_nonneg; lia].
    apply Z.land_nonneg; left.
    apply Z.lor_nonneg; split; [|apply Z.shiftl_nonneg; lia].
    apply Z.land_nonneg; left. lia. }
  split; [assumption|].
  apply bits_high_small; [lia|assumption|].
  intros n Hge. rewrite set_version_bit by lia.
  rewrite (small_bits_high r 128 n Hr Hge).
  unfold uuid.is_stamped. split_cmp.
Qed.

(** [set_version] forgets exactly the six stamped bits. *)
Lemma set_version_eq_iff (r1 r2 : Z) :
  uuid.set_version r1 4 = uuid.set_version r2 4
  <-> uuid.free_bits r1 = uuid.free_bits r2.
Proof.
  split; intros E; apply Z.bits_inj'; intros n Hn.
  - apply (f_equal (fun a => Z.testbit a n)) in E.
    rewrite !set_version_bit in E by assumption.
    rewrite !free_bits_bit by assumption.
    destruct (uuid.is_stamped n); cbn [negb];
      rewrite ?andb_false_r, ?andb_true_r; [reflexivity|exact E].
  - apply (f_equal (fun a => Z.testbit a n)) in E.
    rewrite !free_bits_bit in E by assumption.
    rewrite !set_version_bit by assumption.
    destruct (uuid.is_stamped n); [reflexivity|].
    cbn [negb] in E. rewrite !andb_true_r in E. exact E.
Qed.

Lemma nibble_eq_bits (n : Z) (i : nat) (v : Z) :
  0 <= v < 16 ->
  (forall k, 0 <= k < 4 ->
     Z.testbit n (4 * Z.of_nat i + k) = Z.testbit v k) ->
  nibble n i = v.
Proof.
  intros Hv H. apply Z.bits_inj'. intros k Hk.
  destruct (Z.lt_ge_cases k 4) as [Hlt|Hge].
  - rewrite nibble_bit by lia. apply H. lia.
  - rewrite (small_bits_high (nibble n i) 4 k (nibble_range n i) Hge).
    rewrite (small_bits_high v 4 k Hv Hge). reflexivity.
Qed.

Lemma version_nibble (r : Z) : nibble (uuid.set_version r 4) 19 = 4.
Proof.
  apply nibble_eq_bits; [lia|]. intros k Hk.
  rewrite set_version_bit by lia.
  assert (E : k = 0 \/ k = 1 \/ k = 2 \/ k = 3) by lia.
  destruct E as [ -> | [ -> | [ -> | -> ] ] ]; reflexivity.
Qed.

Lemma variant_nibble (r : Z) : 8 <= nibble (uuid.set_version r 4) 15 < 12.
Proof.
  pose proof (nibble_range (uuid.set_version r 4) 15) as Hr.
  pose proof (nibble_bit (uuid.set_version r 4) 15 3 ltac:(lia)) as H3.
  pose proof (nibble_bit (uuid.set_version r 4) 15 2 ltac:(lia)) as H2.
  rewrite set_version_bit in H3, H2 by lia.
  change (Z.testbit (nibble (uuid.set_version r 4) 15) 3 = true) in H3.
  change (Z.testbit (nibble (uuid.set_version r 4) 15) 2 = false) in H2.
  apply Z.testbit_true in H3; [|lia]. apply Z.testbit_false in H2; [|lia].
  change (2 ^ 3) with 8 in H3. change (2 ^ 2) with 4 in H2.
  set (v := nibble (uuid.set_version r 4) 15) in *. clearbody v.
  Z.to_euclidean_division_equations. lia.
Qed.

(** ** The textual form of an identifier *)

Lemma from_bytes_acc (bs : list byte) (acc k : Z) :
  0 <= k -> 0 <= acc < 2 ^ k ->
  0 <= fold_left (fun a b => a * 256 + Z.of_N (Byte.to_N b)) bs acc
    < 2 ^ (k + 8 * Z.of_nat (length bs)).
Proof.
  revert acc k. induction bs as [|b bs IH]; intros acc k Hk Hacc.
  - simpl. rewrite Z.add_0_r. exact Hacc.
  - cbn [fold_left length]. rewrite Nat2Z.inj_succ.
    replace (k + 8 * Z.succ (Z.of_nat (length bs)))
      with ((k + 8) + 8 * Z.of_nat (length bs)) by lia.
    apply IH; [lia|].
    pose proof (Byte.to_N_bounded b) as Hb.
    rewrite Z.pow_add_r by lia. change (2 ^ 8) with 256. lia.
Qed.

Lemma from_bytes_range (bs : list byte) :
  0 <= uuid.from_bytes bs < 2 ^ (8 * Z.of_nat (length bs)).
Proof.
  unfold uuid.from_bytes.
  apply (from_bytes_acc bs 0 0); [lia|]. change (2 ^ 0) with 1. lia.
Qed.

Lemma random_bytes_length (w : world) : length (random_bytes w) = 16%nat.
Proof. unfold random_bytes. rewrite length_map, length_seq. reflexivity. Qed.

(** [uuid.UUID] never raises on the bytes [os.urandom(16)] returns. *)
Lemma UUID_random_bytes (w : world) :
  uuid.UUID (random_bytes w) 4
  = Ok (uuid.set_version (uuid.from_bytes (random_bytes w)) 4).
Proof.
  unfold uuid.UUID. rewrite random_bytes_length. reflexivity.
Qed.

Lemma uid_int_eq (w : world) :
  uid_int w = uuid.set_version (uuid.from_bytes (random_bytes w)) 4.
Proof. unfold uid_int. rewrite UUID_random_bytes. reflexivity. Qed.

Lemma uid_int_range (w : world) : 0 <= uid_int w < 2 ^ 128.
Proof.
  rewrite uid_int_eq. apply set_version_range.
  pose proof (from_bytes_range (random_bytes w)) as H.
  rewrite random_bytes_length in H. exact H.
Qed.

Lemma to_str_layout (u : Z) :
  0 <= u < 2 ^ 128 ->
  uuid.to_str u = uuid.layout (fun i => hexdigit (nibble u i)).
Proof.
  intros Hu. unfold uuid.to_str, format_032x.
  rewrite zfill_format_x by (change (2 ^ (4 * Z.of_nat 32)) with (2 ^ 128); lia).
  generalize (fun i => hexdigit (nibble u i)) as f. intro f. reflexivity.
Qed.

Lemma layout_syntax (f : nat -> N) :
  (forall i, uuid.is_hex (f i) = true) ->
  uuid.is_uuid_syntax (uuid.layout f) = true.
Proof.
  intros H. unfold uuid.is_uuid_syntax, uuid.layout.
  cbn [uuid.groups_ok map app firstn skipn forallb length Nat.eqb].
  rewrite !H. reflexivity.
Qed.

Lemma layout_inj (f g : nat -> N) :
  uuid.layout f = uuid.layout g ->
  forall i, (i < 32)%nat -> f i = g i.
Proof.
  unfold uuid.layout. cbn [map app]. intros E.
  injection E. intros.
  do 32 (destruct i as [|i]; [assumption|]). lia.
Qed.

(** Two identifiers below [2^128] with the same text are the same. *)
Lemma to_str_inj (u v : Z) :
  0 <= u < 2 ^ 128 -> 0 <= v < 2 ^ 128 ->
  uuid.to_str u = uuid.to_str v -> u = v.
Proof.
  intros Hu Hv E. rewrite !to_str_layout in E by assumption.
  pose proof (layout_inj _ _ E) as D. cbv beta in D.
  apply Z.bits_inj'. intros n Hn.
  destruct (Z.lt_ge_cases n 128) as [Hlt|Hge].
  - pose proof (Z.div_mod n 4 ltac:(lia)) as Hd.
    pose proof (Z.mod_pos_bound n 4 ltac:(lia)) as Hm.
    assert (Hq : 0 <= n / 4 < 32)
      by (split; [apply Z.div_pos; lia|apply Z.div_lt_upper_bound; lia]).
    assert (Ei : nibble u (Z.to_nat (n / 4)) = nibble v (Z.to_nat (n / 4))).
    { apply hexdigit_inj; try apply nibble_range. apply D. lia. }
    apply (f_equal (fun a => Z.testbit a (n mod 4))) in Ei.
    rewrite !nibble_bit in Ei by lia.
    replace (4 * Z.of_nat (Z.to_nat (n / 4)) + n mod 4) with n in Ei by lia.
    exact Ei.
  - rewrite (small_bits_high u 128 n Hu Hge).
    rewrite (small_bits_high v 128 n Hv Hge). reflexivity.
Qed.

(** ** Strings the encoder copies unchanged *)

Lemma escape_plain (c : N) : json.is_plain c = true -> json.escape_char c = [c].
Proof.
  unfold json.is_plain, json.escape_char, c_backslash, c_quote. intros H.
  repeat match goal with
         | |- context [(c =? ?k)%N] => destruct (N.eqb_spec c k); [subst c; discriminate|]
         end.
  apply andb_prop in H as [H _]. apply andb_prop in H as [H _].
  rewrite H. reflexivity.
Qed.

Lemma flat_map_escape_plain (s : str) :
  forallb json.is_plain s = true -> flat_map json.escape_char s = s.
Proof.
  induction s as [|c s IH]; intros H; [reflexivity|].
  cbn [forallb] in H. apply andb_prop in H as [Hc Hs].
  cbn [flat_map]. rewrite escape_plain by assumption. rewrite IH by assumption.
  reflexivity.
Qed.

Lemma encode_plain (s : str) :
  forallb json.is_plain s = true ->
  json.encode_basestring_ascii s = c_quote :: s ++ [c_quote].
Proof.
  intros H. unfold json.encode_basestring_ascii.
  rewrite flat_map_escape_plain by assumption. reflexivity.
Qed.

Lemma is_hex_plain (c : N) : uuid.is_hex c = true -> json.is_plain c = true.
Proof.
  unfold uuid.is_hex, json.is_plain. intros H.
  apply orb_prop in H as [H|H]; apply andb_prop in H as [H1 H2];
    apply N.leb_le in H1; apply N.leb_le in H2;
    repeat (apply andb_true_intro; split);
    try (apply N.leb_le; lia);
    apply negb_true_iff; apply N.eqb_neq; lia.
Qed.

Lemma layout_plain (f : nat -> N) :
  (forall i, uuid.is_hex (f i) = true) ->
  forallb json.is_plain (uuid.layout f) = true.
Proof.
  intros H. unfold uuid.layout. cbn [map app forallb].
  rewrite !(is_hex_plain _ (H _)). reflexivity.
Qed.

Lemma cluster_uid_layout (w : world) :
  cluster_uid w = uuid.layout (fun i => hexdigit (nibble (uid_int w) i)).
Proof. apply to_str_layout, uid_int_range. Qed.

Lemma cluster_uid_plain (w : world) :
  forallb json.is_plain (cluster_uid w) = true.
Proof.
  rewrite cluster_uid_layout. apply layout_plain.
  intros i. apply hexdigit_is_hex.
Qed.

(** ** The request text and its decoding *)

Lemma dumps_cluster_definition (uid : str) :
  forallb json.is_plain uid = true ->
  json.dumps (cluster_definition uid) = body_prefix ++ uid ++ body_suffix.
Proof.
  intros H. unfold cluster_definition.
  cbn [json.dumps map join fst snd]. rewrite (encode_plain uid H).
  change (c_quote :: uid ++ [c_quote]) with ([c_quote] ++ uid ++ [c_quote]).
  rewrite <- !app_assoc. reflexivity.
Qed.

Lemma run_app (st : json.state) (a b : str) :
  json.run st (a ++ b)
  = match json.run st a with
    | Some st' => json.run st' b
    | None => None
    end.
Proof.
  revert st. induction a as [|c a IH]; intros st; [reflexivity|].
  cbn [app json.run]. destruct (json.step st c); [apply IH|reflexivity].
Qed.

Lemma run_plain (s : str) (buf : str) (stack : list json.frame) (rest : str) :
  forallb json.is_plain s = true ->
  json.run (json.MString buf None json.SChars, stack) (s ++ rest)
  = json.run (json.MString (buf ++ s) None json.SChars, stack) rest.
Proof.
  revert buf. induction s as [|c s IH]; intros buf H.
  - rewrite app_nil_r. reflexivity.
  - cbn [forallb] in H. apply andb_prop in H as [Hc Hs].
    cbn [app json.run json.step json.string_step json.flush].
    unfold json.is_plain in Hc.
    apply andb_prop in Hc as [Hc Hb]. apply andb_prop in Hc as [Hc Hq].
    apply andb_prop in Hc as [Hlo _].
    apply negb_true_iff in Hb, Hq. unfold c_backslash, c_quote.
    rewrite Hb, Hq.
    replace (c <? 32)%N with false
      by (symmetry; apply N.ltb_ge; apply N.leb_le; exact Hlo).
    rewrite IH by assumption. rewrite <- app_assoc. reflexivity.
Qed.

(** Decoding the text of the dictionary gives the dictionary back. *)
Lemma loads_dumps_cluster_definition (uid : str) :
  forallb json.is_plain uid = true ->
  json.loads (json.dumps (cluster_definition uid))
  = Some (cluster_definition uid).
Proof.
  intros H. rewrite dumps_cluster_definition by assumption.
  unfold json.loads. rewrite run_app.
  match goal with
  | |- context [json.run ?st body_prefix] =>
      let r := eval vm_compute in (json.run st body_prefix) in
      change (json.run st body_prefix) with r
  end.
  cbv iota. rewrite run_plain by assumption.
  cbn [app]. reflexivity.
Qed.

(** ** The runs of the script *)

(** The three ways a run can go, decided by the endpoint. *)
Lemma run_cases (w : world) :
  run w =
    match endpoint w (sent_request w) with
    | Unreachable => (opening w, Raise ConnectionError)
    | Replied status text =>
        match json.loads text with
        | Some v =>
            (opening w ++ [EReply status text; EPrint (PyInt status); EPrint v],
             Ok tt)
        | None =>
            (opening w ++ [EReply status text; EPrint (PyInt status)],
             Raise JSONDecodeError)
        end
    | Failed name => (opening w, Raise (RequestException name))
    end.
Proof.
  unfold run, script, uuid4, os_urandom, requests.post, requests.json, print.
  cbv [bind ask emit ret lift raise].
  change (map (entropy w) (seq 0 16)) with (random_bytes w).
  rewrite UUID_random_bytes, <- uid_int_eq.
  unfold opening, sent_request, payload, cluster_uid.
  destruct (endpoint w _) as [|status text|name];
    [reflexivity| |reflexivity].
  cbn [requests.text requests.status_code].
  destruct (json.loads text); reflexivity.
Qed.

Lemma run_unreachable (w : world) :
  endpoint w (sent_request w) = Unreachable ->
  run w = (opening w, Raise ConnectionError).
Proof. intros H. rewrite run_cases, H. reflexivity. Qed.

Lemma run_reply_json (w : world) (status : Z) (text : str) (v : pyval) :
  endpoint w (sent_request w) = Replied status text ->
  json.loads text = Some v ->
  run w = (opening w ++ [EReply status text; EPrint (PyInt status); EPrint v],
           Ok tt).
Proof. intros H L. rewrite run_cases, H, L. reflexivity. Qed.

Lemma run_reply_not_json (w : world) (status : Z) (text : str) :
  endpoint w (sent_request w) = Replied status text ->
  json.loads text = None ->
  run w = (opening w ++ [EReply status text; EPrint (PyInt status)],
           Raise JSONDecodeError).
Proof. intros H L. rewrite run_cases, H, L. reflexivity. Qed.

(** A run that completes went through a reply whose body is JSON. *)
Lemma run_ok_inv (w : world) :
  outcome w = Ok tt ->
  exists status text v,
    endpoint w (sent_request w) = Replied status text
    /\ json.loads text = Some v.
Proof.
  unfold outcome. rewrite run_cases.
  destruct (endpoint w (sent_request w)) as [|status text|name];
    [discriminate| |discriminate].
  destruct (json.loads text) as [v|] eqn:L; [|discriminate].
  intros _. exists status, text, v. split; [reflexivity|exact L].
Qed.

(** Whatever the endpoint does, the trace starts with [opening]; what
    follows holds no draw and no request. *)
Lemma trace_opening (w : world) :
  exists rest,
    trace w = opening w ++ rest /\ posts rest = [] /\ draws rest = [].
Proof.
  unfold trace. rewrite run_cases.
  destruct (endpoint w (sent_request w)) as [|status text|name].
  - exists []. rewrite app_nil_r. repeat split.
  - destruct (json.loads text) as [v|]; eexists; repeat split.
  - exists []. rewrite app_nil_r. repeat split.
Qed.

Lemma posts_trace (w : world) : posts (trace w) = [sent_request w].
Proof.
  destruct (trace_opening w) as (rest & -> & P & _).
  unfold posts in *. rewrite flat_map_app, P. reflexivity.
Qed.

Lemma draws_trace (w : world) : draws (trace w) = [random_bytes w].
Proof.
  destruct (trace_opening w) as (rest & -> & _ & D).
  unfold draws in *. rewrite flat_map_app, D. reflexivity.
Qed.

Lemma loads_payload (w : world) :
  json.loads (json.dumps (payload w)) = Some (payload w).
Proof. apply loads_dumps_cluster_definition, cluster_uid_plain. Qed.

(** ** The endpoint, the request and the identifier *)

(** C1: the body of the one POST request is the JSON text of a dictionary
    with the single key [cluster]; the dictionary under it has exactly the
    seven keys of the data model; [name], [platformType], [agentsList] (a
    list of one element), [domainName] and [creationTime] hold the
    literals of the script, [managedBy] the empty string, and [uid] the
    identifier generated in this run from its one draw of random bytes. *)
Theorem request_body_wraps_descriptor (w : world) :
  exists body cluster,
    map req_body (posts (trace w)) = [body]
    /\ body = json.dumps (PyDict [(lit "cluster", PyDict cluster)])
    /\ json.loads body = Some (PyDict [(lit "cluster", PyDict cluster)])
    /\ keys cluster = descriptor_keys
    /\ dict_get cluster (lit "name") = Some (PyStr (lit "clusterName"))
    /\ dict_get cluster (lit "platformType") = Some (PyStr (lit "Docker"))
    /\ dict_get cluster (lit "agentsList") = Some (PyList [PyStr (lit "agent1")])
    /\ dict_get cluster (lit "domainName") = Some (PyStr (lit "example.org"))
    /\ dict_get cluster (lit "creationTime")
       = Some (PyStr (lit "Feb 08 2023 21:02:10"))
    /\ dict_get cluster (lit "managedBy") = Some (PyStr [])
    /\ dict_get cluster (lit "uid") = Some (PyStr (cluster_uid w))
    /\ cluster_uid w
       = uuid.to_str (uuid.set_version (uuid.from_bytes (random_bytes w)) 4)
    /\ draws (trace w) = [random_bytes w].
Proof.
  pose proof (loads_payload w) as L. unfold payload, cluster_definition in L.
  eexists. eexists. split.
  - rewrite posts_trace. reflexivity.
  - split; [reflexivity|]. split; [exact L|].
    repeat split. apply draws_trace.
Qed.

(** C2, as the code has it: the endpoint is not an input of the script.
    Whatever the command line, the environment variables, the random bytes
    and the network are, the script calls [requests.post] once, and the URL
    it passes is the literal it assigns to [url]: the URL is the same in
    any two runs, a run started with another endpoint on its command line
    and in its environment included.  The payload goes in that call. *)
Theorem endpoint_url_is_fixed (w : world) :
  map req_url (posts (trace w)) = [lit "http://your.api.endpoint"]
  /\ (forall w' : world,
        map req_url (posts (trace w')) = map req_url (posts (trace w)))
  /\ map req_url (posts (trace configured_world))
     = [lit "http://your.api.endpoint"]
  /\ posts (trace w)
     = [{| req_url := lit "http://your.api.endpoint";
           req_content_type := lit "application/json";
           req_body := json.dumps (cluster_definition (cluster_uid w)) |}].
Proof.
  split; [|split; [|split]].
  - rewrite posts_trace. reflexivity.
  - intros w'. rewrite !posts_trace. reflexivity.
  - rewrite posts_trace. reflexivity.
  - rewrite posts_trace. reflexivity.
Qed.

(** C2, as stated, fails: the claim makes the target a parameter of the
    operation, so that for any URL some invocation passes it to
    [requests.post].  No invocation does so for
    [http://localhost:9999/register], whatever its command line and its
    environment.  (The payload can still arrive there when the endpoint
    redirects; that happens inside the call and is the endpoint's doing,
    not an input of the script.) *)
Lemma endpoint_url_not_configurable :
  ~ (forall endpointURL : str,
       exists w : world, In endpointURL (map req_url (posts (trace w)))).
Proof.
  intros H. destruct (H (lit "http://localhost:9999/register")) as [w Hw].
  rewrite posts_trace in Hw. destruct Hw as [E|[]].
  discriminate E.
Qed.

(** ** Runs against particular endpoints *)

(** C3: against an endpoint that echoes the request body with status 200,
    the run completes; after the request text it prints 200 and then the
    decoded response body, which is the dictionary it sent, with the
    identifier generated in this run. *)
Theorem echo_run_prints_payload (w : world) :
  (forall r, endpoint w r = Replied 200 (req_body r)) ->
  outcome w = Ok tt
  /\ stdout (trace w)
     = [PyStr (json.dumps (payload w)); PyInt 200; payload w]
  /\ payload w = cluster_definition (cluster_uid w)
  /\ json.loads (req_body (sent_request w)) = Some (payload w)
  /\ item (payload w) (lit "cluster")
     = Some (PyDict [
         (lit "name", PyStr (lit "clusterName"));
         (lit "platformType", PyStr (lit "Docker"));
         (lit "agentsList", PyList [PyStr (lit "agent1")]);
         (lit "domainName", PyStr (lit "example.org"));
         (lit "creationTime", PyStr (lit "Feb 08 2023 21:02:10"));
         (lit "managedBy", PyStr []);
         (lit "uid", PyStr (cluster_uid w))]).
Proof.
  intros E.
  pose proof (run_reply_json w 200 _ _ (E (sent_request w)) (loads_payload w))
    as R.
  unfold outcome, trace. rewrite R.
  repeat split. apply loads_payload.
Qed.

Lemma echo_run_prints_payload_witness :
  (forall r, endpoint echo_world r = Replied 200 (req_body r))
  /\ outcome echo_world = Ok tt
  /\ stdout (trace echo_world)
     = [PyStr (json.dumps (payload echo_world)); PyInt 200; payload echo_world].
Proof.
  split; [intros r; reflexivity|].
  destruct (echo_run_prints_payload echo_world (fun r => eq_refl))
    as (O & S & _).
  split; [exact O|exact S].
Defined.

(** C4: in every run, decoding the body of the request the run sends gives
    back the dictionary the run built from the bytes it drew: its [cluster]
    entry has exactly the seven keys of the data model, with the values the
    script put there.  Between two runs the entries other than [uid] are
    the same; [uid] is the identifier of its own run, and two runs whose
    decoded bodies differ in [uid] exist. *)
Theorem request_roundtrip :
  (forall w1 w2 : world,
     exists body1 body2 bytes1 bytes2 c1 c2,
       map req_body (posts (trace w1)) = [body1]
       /\ map req_body (posts (trace w2)) = [body2]
       /\ draws (trace w1) = [bytes1]
       /\ draws (trace w2) = [bytes2]
       /\ json.loads body1 = Some (PyDict [(lit "cluster", PyDict c1)])
       /\ json.loads body2 = Some (PyDict [(lit "cluster", PyDict c2)])
       /\ PyDict [(lit "cluster", PyDict c1)]
          = cluster_definition
              (uuid.to_str (uuid.set_version (uuid.from_bytes bytes1) 4))
       /\ PyDict [(lit "cluster", PyDict c2)]
          = cluster_definition
              (uuid.to_str (uuid.set_version (uuid.from_bytes bytes2) 4))
       /\ PyDict [(lit "cluster", PyDict c1)] = payload w1
       /\ PyDict [(lit "cluster", PyDict c2)] = payload w2
       /\ keys c1 = descriptor_keys
       /\ keys c2 = descriptor_keys
       /\ dict_del c1 (lit "uid") = dict_del c2 (lit "uid")
       /\ dict_del c1 (lit "uid")
          = [(lit "name", PyStr (lit "clusterName"));
             (lit "platformType", PyStr (lit "Docker"));
             (lit "agentsList", PyList [PyStr (lit "agent1")]);
             (lit "domainName", PyStr (lit "example.org"));
             (lit "creationTime", PyStr (lit "Feb 08 2023 21:02:10"));
             (lit "managedBy", PyStr [])]
       /\ dict_get c1 (lit "uid") = Some (PyStr (cluster_uid w1))
       /\ dict_get c2 (lit "uid") = Some (PyStr (cluster_uid w2)))
  /\ (exists (w1 w2 : world) body1 body2 v1 v2 c1 c2,
        map req_body (posts (trace w1)) = [body1]
        /\ map req_body (posts (trace w2)) = [body2]
        /\ json.loads body1 = Some v1
        /\ json.loads body2 = Some v2
        /\ item v1 (lit "cluster") = Some (PyDict c1)
        /\ item v2 (lit "cluster") = Some (PyDict c2)
        /\ dict_get c1 (lit "uid") <> dict_get c2 (lit "uid")).
Proof.
  split.
  - intros w1 w2.
    pose proof (loads_payload w1) as L1. pose proof (loads_payload w2) as L2.
    unfold payload, cluster_definition in L1, L2.
    exists (json.dumps (payload w1)), (json.dumps (payload w2)),
      (random_bytes w1), (random_bytes w2).
    eexists. eexists.
    split; [rewrite posts_trace; reflexivity|].
    split; [rewrite posts_trace; reflexivity|].
    split; [apply draws_trace|]. split; [apply draws_trace|].
    split; [exact L1|]. split; [exact L2|].
    split; [unfold cluster_definition, cluster_uid;
            rewrite uid_int_eq; reflexivity|].
    split; [unfold cluster_definition, cluster_uid;
            rewrite uid_int_eq; reflexivity|].
    repeat split.
  - exists echo_world, third_world.
    pose proof (loads_payload echo_world) as L1.
    pose proof (loads_payload third_world) as L2.
    exists (json.dumps (payload echo_world)), (json.dumps (payload third_world)),
      (payload echo_world), (payload third_world).
    eexists. eexists.
    split; [rewrite posts_trace; reflexivity|].
    split; [rewrite posts_trace; reflexivity|].
    split; [exact L1|]. split; [exact L2|].
    split; [reflexivity|]. split; [reflexivity|].
    vm_compute. discriminate.
Qed.

(** C5, as the code has it: the identifier of a run is a well-formed UUID
    text (version digit [4], variant digit [8], [9], [a] or [b]); the
    random source is drawn from exactly once, first of all, before the
    dictionary is built and printed; and two runs have the same identifier
    exactly when [uuid.uuid4] returned the same UUID, that is, exactly when
    their random bytes agree on the 122 bits that [uuid.UUID] does not
    overwrite. *)
Theorem uid_valid_once_and_determined (w1 w2 : world) :
  uuid.is_uuid_syntax (cluster_uid w1) = true
  /\ uuid.version_digit (cluster_uid w1) = 52%N
  /\ In (uuid.variant_digit (cluster_uid w1)) (lit "89ab")
  /\ draws (trace w1) = [random_bytes w1]
  /\ (exists rest,
        trace w1
        = EUrandom (random_bytes w1)
            :: EPrint (PyStr (json.dumps (cluster_definition (cluster_uid w1))))
            :: rest)
  /\ (cluster_uid w1 = cluster_uid w2 <-> uid_int w1 = uid_int w2)
  /\ (cluster_uid w1 = cluster_uid w2
      <-> uuid.free_bits (uuid.from_bytes (random_bytes w1))
          = uuid.free_bits (uuid.from_bytes (random_bytes w2))).
Proof.
  assert (I : cluster_uid w1 = cluster_uid w2 <-> uid_int w1 = uid_int w2).
  { unfold cluster_uid. split.
    - apply to_str_inj; apply uid_int_range.
    - intros E. rewrite E. reflexivity. }
  split; [|split; [|split; [|split; [|split; [|split; [exact I|]]]]]].
  - rewrite cluster_uid_layout. apply layout_syntax.
    intros i. apply hexdigit_is_hex.
  - rewrite cluster_uid_layout. unfold uuid.version_digit, uuid.layout.
    cbn [map app nth]. rewrite uid_int_eq, version_nibble. reflexivity.
  - rewrite cluster_uid_layout. unfold uuid.variant_digit, uuid.layout.
    cbn [map app nth]. rewrite uid_int_eq.
    pose proof (variant_nibble (uuid.from_bytes (random_bytes w1))) as V.
    set (v := nibble _ 15) in *. clearbody v.
    assert (E : v = 8 \/ v = 9 \/ v = 10 \/ v = 11) by lia.
    destruct E as [ -> | [ -> | [ -> | -> ] ] ]; cbn; tauto.
  - apply draws_trace.
  - destruct (trace_opening w1) as (rest & E & _).
    exists (EPost (sent_request w1) :: rest). exact E.
  - rewrite <- set_version_eq_iff, <- !uid_int_eq. exact I.
Qed.

(** C5, as stated, fails: two runs whose random bytes differ only in a bit
    that [uuid.UUID] overwrites (here a version bit, in the seventh byte)
    have the same identifier. *)
Lemma uid_not_injective_in_random_bytes :
  ~ (forall w1 w2 : world,
       random_bytes w1 <> random_bytes w2 -> cluster_uid w1 <> cluster_uid w2).
Proof.
  intros H. apply (H echo_world other_world).
  - vm_compute. discriminate.
  - vm_compute. reflexivity.
Qed.

(** C6: in a run that completes, the request text is printed before the
    request is sent, the reply is received after that, and only then the
    status code and, after it, the decoded body are printed. *)
Theorem completed_run_order (w : world) :
  outcome w = Ok tt ->
  exists status text v,
    trace w
    = [EUrandom (random_bytes w);
       EPrint (PyStr (req_body (sent_request w)));
       EPost (sent_request w);
       EReply status text;
       EPrint (PyInt status);
       EPrint v]
    /\ endpoint w (sent_request w) = Replied status text
    /\ json.loads text = Some v.
Proof.
  intros O. destruct (run_ok_inv w O) as (status & text & v & E & L).
  exists status, text, v. unfold trace.
  rewrite (run_reply_json w status text v E L).
  repeat split; assumption.
Qed.

Lemma completed_run_order_witness :
  outcome echo_world = Ok tt
  /\ exists status text v,
       trace echo_world
       = [EUrandom (random_bytes echo_world);
          EPrint (PyStr (req_body (sent_request echo_world)));
          EPost (sent_request echo_world);
          EReply status text;
          EPrint (PyInt status);
          EPrint v]
       /\ endpoint echo_world (sent_request echo_world) = Replied status text
       /\ json.loads text = Some v.
Proof.
  assert (O : outcome echo_world = Ok tt) by (vm_compute; reflexivity).
  split; [exact O|exact (completed_run_order echo_world O)].
Defined.

(** C7: when the endpoint is unreachable the run ends with the uncaught
    transport error; standard output holds the request text and nothing
    else, no status code in particular, and no reply was received. *)
Theorem unreachable_run (w : world) :
  endpoint w (sent_request w) = Unreachable ->
  outcome w = Raise ConnectionError
  /\ stdout (trace w) = [PyStr (req_body (sent_request w))]
  /\ trace w = opening w.
Proof.
  intros H. unfold outcome, trace. rewrite (run_unreachable w H).
  repeat split.
Qed.

Lemma unreachable_run_witness :
  endpoint dead_world (sent_request dead_world) = Unreachable
  /\ outcome dead_world = Raise ConnectionError
  /\ stdout (trace dead_world) = [PyStr (req_body (sent_request dead_world))]
  /\ trace dead_world = opening dead_world.
Proof.
  split; [reflexivity|]. apply (unreachable_run dead_world). reflexivity.
Defined.



Example valid_json_examples :
  map is_valid_json
    [lit "[1, -2.5e3, null, true, {}]";
     req_body (sent_request echo_world);
     lit "NaN"; lit "[-Infinity]"; lit "Infinity"; lit "<html>ok</html>"; []]
  = [true; true; false; false; false; false; false].
Proof. reflexivity. Qed.




(** C9, as the code has it: when the reply body is one that the decoder
    rejects, the status code is already on standard output when the
    decoding error ends the run: the output is the request text and the
    status code.  An unreachable endpoint leaves the request text alone. *)
Theorem non_json_reply_partial_output
    (w : world) (status : Z) (text : str) (w' : world) :
  endpoint w (sent_request w) = Replied status text ->
  json.loads text = None ->
  endpoint w' (sent_request w') = Unreachable ->
  (outcome w = Raise JSONDecodeError
   /\ stdout (trace w) = [PyStr (req_body (sent_request w)); PyInt status])
  /\ (outcome w' = Raise ConnectionError
      /\ stdout (trace w') = [PyStr (req_body (sent_request w'))]).
Proof.
  intros H L U. unfold outcome, trace.
  rewrite (run_reply_not_json w status text H L), (run_unreachable w' U).
  repeat split.
Qed.

Lemma non_json_reply_partial_output_witness :
  endpoint html_world (sent_request html_world)
    = Replied 200 (lit "<html>ok</html>")
  /\ json.loads (lit "<html>ok</html>") = None
  /\ endpoint dead_world (sent_request dead_world) = Unreachable
  /\ (outcome html_world = Raise JSONDecodeError
      /\ stdout (trace html_world)
         = [PyStr (req_body (sent_request html_world)); PyInt 200])
  /\ (outcome dead_world = Raise ConnectionError
      /\ stdout (trace dead_world)
         = [PyStr (req_body (sent_request dead_world))]).
Proof.
  split; [reflexivity|]. split; [reflexivity|]. split; [reflexivity|].
  apply (non_json_reply_partial_output
           html_world 200 (lit "<html>ok</html>") dead_world); reflexivity.
Defined.

(** C9, as stated, fails: [\[-Infinity\]] is not JSON, and the decoder
    accepts it.  A reply of status 200 with this body leaves no partial
    output: the request text, the status code and the decoded body are all
    printed. *)
Lemma non_json_reply_full_output :
  ~ (forall (w : world) (status : Z) (text : str),
       endpoint w (sent_request w) = Replied status text ->
       is_valid_json text = false ->
       stdout (trace w) = [PyStr (req_body (sent_request w)); PyInt status]).
Proof.
  intros H.
  assert (S : stdout (trace infinity_world)
              = [PyStr (req_body (sent_request infinity_world)); PyInt 200;
                 PyList [PyFloat (lit "-Infinity")]]) by reflexivity.
  rewrite (H infinity_world 200 (lit "[-Infinity]") eq_refl eq_refl) in S.
  discriminate S.
Qed.

(** C10: the text printed first and the body of the request are the
    encodings of one and the same dictionary: they decode to equal values,
    the dictionary the run built, and so carry the same [uid]. *)
Theorem printed_and_sent_agree (w : world) :
  exists printed rest body v,
    stdout (trace w) = PyStr printed :: rest
    /\ map req_body (posts (trace w)) = [body]
    /\ printed = json.dumps (payload w)
    /\ body = json.dumps (payload w)
    /\ json.loads printed = Some v
    /\ json.loads body = Some v
    /\ v = payload w
    /\ exists cluster,
         item v (lit "cluster") = Some (PyDict cluster)
         /\ dict_get cluster (lit "uid") = Some (PyStr (cluster_uid w)).
Proof.
  destruct (trace_opening w) as (rest & E & _).
  exists (json.dumps (payload w)), (stdout rest), (json.dumps (payload w)),
    (payload w).
  split; [rewrite E; unfold stdout; rewrite flat_map_app; reflexivity|].
  split; [rewrite posts_trace; reflexivity|].
  split; [reflexivity|]. split; [reflexivity|].
  split; [apply loads_payload|]. split; [apply loads_payload|].
  split; [reflexivity|].
  eexists. split; reflexivity.
Qed.

(* ================================================================= *)
(** * Further properties of the script *)

(** ** The text of the request *)


Lemma cluster_uid_length (w : world) : length (cluster_uid w) = 36%nat.
Proof. rewrite cluster_uid_layout. reflexivity. Qed.


(** ** Whitespace around a JSON text *)

Lemma is_ws_cases (c : N) :
  json.is_ws c = true -> c = 32%N \/ c = 9%N \/ c = 10%N \/ c = 13%N.
Proof.
  unfold json.is_ws. intros H.
  repeat (apply orb_prop in H as [H|H]); apply N.eqb_eq in H; auto.
Qed.

Lemma run_leading_ws (a : str) (may_close : bool) (stack : list json.frame)
    (rest : str) :
  forallb json.is_ws a = true ->
  json.run (json.MValue may_close, stack) (a ++ rest)
  = json.run (json.MValue may_close, stack) rest.
Proof.
  induction a as [|c a IH]; intros H; [reflexivity|].
  cbn [forallb] in H. apply andb_prop in H as [Hc Ha].
  cbn [app json.run json.step]. unfold json.value_step. rewrite Hc.
  apply IH, Ha.
Qed.

Lemma deliver_tail_ok (v : pyval) (stack : list json.frame) (st : json.state) :
  json.deliver v stack = Some st -> literal_tail_ok st.
Proof.
  unfold json.deliver. intros H.
  destruct stack as [|[items|pairs|pairs key] up];
    try discriminate H; injection H as <-; exact I.
Qed.

Lemma after_step_tail_ok (m : json.mode) (stack : list json.frame) (c : N)
    (st : json.state) :
  json.after_step m stack c = Some st -> literal_tail_ok st.
Proof.
  unfold json.after_step. intros H.
  repeat match type of H with
         | context [if ?b then _ else _] => destruct b
         | context [match ?x with _ => _ end] => destruct x
         end;
    try discriminate H;
    try (injection H as <-; exact I);
    try (eapply deliver_tail_ok; exact H).
Qed.

Lemma step_tail_ok (st : json.state) (c : N) (st' : json.state) :
  literal_tail_ok st -> json.step st c = Some st' -> literal_tail_ok st'.
Proof.
  destruct st as [m stack]. intros Hok H.
  destruct m as [mc|mc| | |buf hs ss|lexeme ns|rest v|v]; cbn [json.step] in H.
  - unfold json.value_step in H.
    repeat match type of H with
           | context [if ?b then _ else _] => destruct b
           | context [match ?x with _ => _ end] => destruct x
           end;
      try discriminate H;
      try (injection H as <-; first [exact I | reflexivity]);
      try (eapply deliver_tail_ok; exact H).
  - repeat match type of H with
           | context [if ?b then _ else _] => destruct b
           | context [match ?x with _ => _ end] => destruct x
           end;
      try discriminate H;
      try (injection H as <-; exact I);
      try (eapply deliver_tail_ok; exact H).
  - repeat match type of H with
           | context [if ?b then _ else _] => destruct b
           end;
      try discriminate H; injection H as <-; exact I.
  - eapply after_step_tail_ok; exact H.
  - unfold json.string_step, json.end_string, json.escape_done in H.
    repeat match type of H with
           | context [if ?b then _ else _] => destruct b
           | context [match ?x with _ => _ end] => destruct x
           end;
      try discriminate H;
      try (injection H as <-; exact I);
      try (eapply deliver_tail_ok; exact H).
  - destruct (json.number_step ns c) as [ns'|].
    + injection H as <-. exact I.
    + destruct ns; cbn in H;
        repeat match type of H with
               | context [if ?b then _ else _] => destruct b
               | context [match ?x with _ => _ end] => destruct x eqn:?
               end;
        try discriminate H;
        try (injection H as <-; first [exact I | reflexivity]);
        try (eapply after_step_tail_ok; exact H).
  - destruct rest as [|r rest']; [discriminate H|].
    unfold literal_tail_ok in Hok. cbn [fst forallb] in Hok.
    apply andb_prop in Hok as [_ Hok].
    destruct (c =? r)%N; [|discriminate H].
    destruct rest' as [|r' rest''].
    + eapply deliver_tail_ok; exact H.
    + injection H as <-. exact Hok.
  - eapply after_step_tail_ok; exact H.
Qed.

Lemma run_tail_ok (s : str) (st st' : json.state) :
  literal_tail_ok st -> json.run st s = Some st' -> literal_tail_ok st'.
Proof.
  revert st. induction s as [|c s IH]; intros st Hok H.
  - injection H as <-. exact Hok.
  - cbn [json.run] in H. destruct (json.step st c) as [st1|] eqn:E;
      [|discriminate H].
    apply (IH st1); [eapply step_tail_ok; eassumption|exact H].
Qed.

(** One whitespace character after a text changes neither whether the text
    is a complete document nor its value. *)
Lemma finish_ws_step (st : json.state) (c : N) :
  literal_tail_ok st -> json.is_ws c = true ->
  match json.step st c with
  | Some st' => json.finish st' = json.finish st
  | None => json.finish st = None
  end.
Proof.
  intros Hok Hc. destruct st as [m stack].
  destruct m as [mc|mc| | |buf hs ss|lexeme ns|rest v|v].
  - cbn [json.step]. unfold json.value_step. rewrite Hc. reflexivity.
  - cbn [json.step]. rewrite Hc. reflexivity.
  - cbn [json.step]. rewrite Hc. reflexivity.
  - cbn [json.step json.after_step]. rewrite Hc. reflexivity.
  - apply is_ws_cases in Hc.
    destruct Hc as [ -> | [ -> | [ -> | -> ] ] ];
      destruct ss; reflexivity.
  - apply is_ws_cases in Hc.
    destruct Hc as [ -> | [ -> | [ -> | -> ] ] ];
      destruct ns; destruct stack as [|[items|pairs|pairs key] up];
      reflexivity.
  - destruct rest as [|r rest']; [reflexivity|].
    unfold literal_tail_ok in Hok. cbn [fst forallb] in Hok.
    apply andb_prop in Hok as [Hr _]. apply negb_true_iff in Hr.
    cbn [json.step]. destruct (N.eqb_spec c r) as [->|_]; [congruence|].
    reflexivity.
  - cbn [json.step json.after_step]. rewrite Hc. reflexivity.
Qed.

Lemma run_trailing_ws (b : str) (st : json.state) :
  literal_tail_ok st -> forallb json.is_ws b = true ->
  match json.run st b with
  | Some st' => json.finish st'
  | None => None
  end = json.finish st.
Proof.
  revert st. induction b as [|c b IH]; intros st Hok H; [reflexivity|].
  cbn [forallb] in H. apply andb_prop in H as [Hc Hb].
  cbn [json.run]. pose proof (finish_ws_step st c Hok Hc) as F.
  destruct (json.step st c) as [st'|] eqn:E.
  - rewrite IH; [exact F| |exact Hb]. eapply step_tail_ok; eassumption.
  - symmetry. exact F.
Qed.

(** X5: [json.loads] ignores whitespace before and after the text: it
    accepts the padded text exactly when it accepts the text, with the same
    value. *)
Theorem loads_ignores_blank_margins (a s b : str) :
  forallb json.is_ws a = true ->
  forallb json.is_ws b = true ->
  json.loads (a ++ s ++ b) = json.loads s.
Proof.
  intros Ha Hb. unfold json.loads.
  rewrite (run_leading_ws a false [] (s ++ b) Ha), run_app.
  destruct (json.run (json.MValue false, []) s) as [st|] eqn:R; [|reflexivity].
  apply run_trailing_ws; [|exact Hb].
  apply (run_tail_ok s (json.MValue false, []) st); [exact I|exact R].
Qed.

Lemma loads_ignores_blank_margins_witness :
  forallb json.is_ws [32; 9]%N = true
  /\ forallb json.is_ws [13; 10]%N = true
  /\ json.loads ([32; 9]%N ++ lit "[true, null]" ++ [13; 10]%N)
     = json.loads (lit "[true, null]").
Proof.
  split; [reflexivity|]. split; [reflexivity|].
  apply (loads_ignores_blank_margins [32; 9]%N (lit "[true, null]") [13; 10]%N);
    reflexivity.
Defined.

(** A text of whitespace alone is no JSON document. *)
Lemma loads_blank (text : str) :
  forallb json.is_ws text = true -> json.loads text = None.
Proof.
  intros H. unfold json.loads.
  rewrite <- (app_nil_r text), (run_leading_ws text false [] [] H).
  reflexivity.
Qed.

(** X6: a reply with an empty or blank body, whatever its status code (a
    204 for instance), ends the run with the uncaught decoding error, after
    the status code was printed. *)
Theorem blank_reply_raises (w : world) (status : Z) (text : str) :
  endpoint w (sent_request w) = Replied status text ->
  forallb json.is_ws text = true ->
  outcome w = Raise JSONDecodeError
  /\ stdout (trace w) = [PyStr (req_body (sent_request w)); PyInt status].
Proof.
  intros E H. unfold outcome, trace.
  rewrite (run_reply_not_json w status text E (loads_blank text H)).
  split; reflexivity.
Qed.

Lemma blank_reply_raises_witness :
  endpoint blank_world (sent_request blank_world) = Replied 204 []
  /\ forallb json.is_ws [] = true
  /\ outcome blank_world = Raise JSONDecodeError
  /\ stdout (trace blank_world)
     = [PyStr (req_body (sent_request blank_world)); PyInt 204].
Proof.
  split; [reflexivity|]. split; [reflexivity|].
  apply (blank_reply_raises blank_world 204 []); reflexivity.
Defined.

(** X7: an endpoint that answers 200 may wrap the echoed body in
    whitespace (a trailing newline, say): the run still completes and
    prints the dictionary it sent. *)
Theorem padded_echo_completes (w : world) (a b : str) :
  forallb json.is_ws a = true ->
  forallb json.is_ws b = true ->
  endpoint w (sent_request w)
    = Replied 200 (a ++ req_body (sent_request w) ++ b) ->
  outcome w = Ok tt
  /\ stdout (trace w)
     = [PyStr (req_body (sent_request w)); PyInt 200; payload w].
Proof.
  intros Ha Hb E.
  assert (L : json.loads (a ++ req_body (sent_request w) ++ b)
              = Some (payload w)).
  { rewrite (loads_ignores_blank_margins a _ b Ha Hb). apply loads_payload. }
  unfold outcome, trace. rewrite (run_reply_json w 200 _ _ E L).
  split; reflexivity.
Qed.

Lemma padded_echo_completes_witness :
  forallb json.is_ws [13; 10]%N = true
  /\ forallb json.is_ws [10]%N = true
  /\ endpoint padded_world (sent_request padded_world)
     = Replied 200 ([13; 10]%N ++ req_body (sent_request padded_world) ++ [10]%N)
  /\ outcome padded_world = Ok tt
  /\ stdout (trace padded_world)
     = [PyStr (req_body (sent_request padded_world)); PyInt 200;
        payload padded_world].
Proof.
  split; [reflexivity|]. split; [reflexivity|]. split; [reflexivity|].
  apply (padded_echo_completes padded_world [13; 10]%N [10]%N);
    reflexivity.
Defined.

(** ** Strings through the encoder and the decoder *)

Lemma nibbles4 (n : Z) :
  0 <= n < 65536 ->
  ((nibble n 3 * 16 + nibble n 2) * 16 + nibble n 1) * 16 + nibble n 0 = n.
Proof.
  intros H. unfold nibble. change 15 with (Z.ones 4).
  rewrite !Z.land_ones, !Z.shiftr_div_pow2 by lia.
  change (2 ^ (4 * Z.of_nat 3)) with 4096.
  change (2 ^ (4 * Z.of_nat 2)) with 256.
  change (2 ^ (4 * Z.of_nat 1)) with 16.
  change (2 ^ (4 * Z.of_nat 0)) with 1.
  change (2 ^ 4) with 16.
  Z.to_euclidean_division_equations. lia.
Qed.

Lemma step_hex (buf : str) (hs : option N) (todo : nat) (acc : N)
    (stack : list json.frame) (d : Z) :
  0 <= d < 16 ->
  json.step (json.MString buf hs (json.SHex todo acc), stack) (hexdigit d)
  = Some (match todo with
          | S (S k) => json.MString buf hs (json.SHex (S k) (acc * 16 + Z.to_N d))
          | _ => json.escape_done buf hs (acc * 16 + Z.to_N d)
          end, stack).
Proof.
  intros H. unfold json.step, json.string_step.
  rewrite (hex_value_hexdigit d H). destruct todo as [|[|k]]; reflexivity.
Qed.

(** The decoder reads back the four digits the encoder writes after
    [\u]. *)
Lemma run_u_escape (n : N) (buf : str) (hs : option N)
    (stack : list json.frame) (rest : str) :
  (n < 65536)%N ->
  json.run (json.MString buf hs json.SEsc, stack)
    (lit "u" ++ format_04x (Z.of_N n) ++ rest)
  = json.run (json.escape_done buf hs n, stack) rest.
Proof.
  intros Hn. unfold format_04x.
  rewrite (zfill_format_x (Z.of_N n) 4)
    by (change (2 ^ (4 * Z.of_nat 4)) with 65536; lia).
  cbn [rev seq app map lit list_ascii_of_string N_of_ascii].
  pose proof (nibble_range (Z.of_N n) 3) as R3.
  pose proof (nibble_range (Z.of_N n) 2) as R2.
  pose proof (nibble_range (Z.of_N n) 1) as R1.
  pose proof (nibble_range (Z.of_N n) 0) as R0.
  pose proof (nibbles4 (Z.of_N n) ltac:(lia)) as S.
  change (N_of_digits [true; false; true; false; true; true; true; false])
    with 117%N.
  cbn [json.run]. unfold json.step at 1. cbn [json.string_step].
  change (117 =? 117)%N with true. cbv iota.
  rewrite !step_hex by assumption.
  repeat f_equal. lia.
Qed.

Lemma lor_shiftl_low (a x k : N) :
  (x < 2 ^ k)%N -> N.lor (N.shiftl a k) x = (a * 2 ^ k + x)%N.
Proof.
  intros Hx.
  assert (D : N.land (N.shiftl a k) x = 0%N).
  { apply N.bits_inj. intros i. rewrite N.land_spec, N.bits_0.
    destruct (N.lt_ge_cases i k) as [Hlt|Hge].
    - rewrite N.shiftl_spec_low by assumption. reflexivity.
    - replace (N.testbit x i) with false; [apply andb_false_r|].
      symmetry. destruct (N.eq_dec x 0) as [->|Hz]; [apply N.bits_0|].
      apply N.bits_above_log2.
      assert (N.log2 x < k)%N by (apply N.log2_lt_pow2; lia). lia. }
  rewrite <- N.lxor_lor, <- N.add_nocarry_lxor, N.shiftl_mul_pow2 by exact D.
  reflexivity.
Qed.

(** The two halves the encoder writes for a code point above [0xFFFF]. *)
Lemma surrogate_halves (c : N) :
  (0x10000 <= c < 0x110000)%N ->
  let n := (c - 0x10000)%N in
  let s1 := N.lor 0xd800 (N.land (N.shiftr n 10) 0x3ff) in
  let s2 := N.lor 0xdc00 (N.land n 0x3ff) in
  (s1 < 65536)%N /\ (s2 < 65536)%N
  /\ json.is_high_surrogate s1 = true
  /\ json.is_low_surrogate s2 = true
  /\ json.join_surrogates s1 s2 = c.
Proof.
  intros H n s1 s2.
  assert (Hn : (n < 1048576)%N) by (unfold n; lia).
  assert (E1 : s1 = (55296 + n / 1024)%N).
  { unfold s1. change 0xd800%N with (N.shiftl 54 10).
    change 0x3ff%N with (N.ones 10).
    rewrite N.land_ones, N.shiftr_div_pow2. change (2 ^ 10)%N with 1024%N.
    assert (n / 1024 < 1024)%N by (apply N.Div0.div_lt_upper_bound; lia).
    rewrite N.mod_small by assumption.
    rewrite lor_shiftl_low by (change (2 ^ 10)%N with 1024%N; assumption).
    reflexivity. }
  assert (E2 : s2 = (56320 + n mod 1024)%N).
  { unfold s2. change 0xdc00%N with (N.shiftl 55 10).
    change 0x3ff%N with (N.ones 10).
    rewrite N.land_ones. change (2 ^ 10)%N with 1024%N.
    rewrite lor_shiftl_low
      by (change (2 ^ 10)%N with 1024%N; apply N.mod_lt; lia).
    reflexivity. }
  assert (Q : (n / 1024 < 1024)%N) by (apply N.Div0.div_lt_upper_bound; lia).
  assert (R : (n mod 1024 < 1024)%N) by (apply N.mod_lt; lia).
  pose proof (N.div_mod' n 1024) as DM.
  assert (Hc : c = (n + 65536)%N) by (unfold n; lia).
  clearbody s1 s2. clearbody n. subst s1 s2.
  set (q := (n / 1024)%N) in *. set (r := (n mod 1024)%N) in *.
  clearbody q r.
  split; [lia|]. split; [lia|]. split; [|split].
  - unfold json.is_high_surrogate. apply andb_true_intro.
    split; apply N.leb_le; lia.
  - unfold json.is_low_surrogate. apply andb_true_intro.
    split; apply N.leb_le; lia.
  - unfold json.join_surrogates.
    replace (55296 + q - 0xd800)%N with q by lia.
    replace (56320 + r - 0xdc00)%N with r by lia.
    rewrite lor_shiftl_low by (change (2 ^ 10)%N with 1024%N; assumption).
    change (2 ^ 10)%N with 1024%N. lia.
Qed.

(** What the encoder writes for one character, the decoder reads back as
    that character. *)
Lemma run_escape_char (c : N) (buf : str) (stack : list json.frame) (rest : str) :
  is_scalar c = true ->
  json.run (json.MString buf None json.SChars, stack)
    (json.escape_char c ++ rest)
  = json.run (json.MString (buf ++ [c]) None json.SChars, stack) rest.
Proof.
  intros Hs. unfold is_scalar in Hs. apply andb_prop in Hs as [Hmax Hsur].
  apply N.ltb_lt in Hmax. apply negb_true_iff in Hsur.
  unfold json.escape_char, c_backslash, c_quote.
  destruct (N.eqb_spec c 92) as [->|N92]; [reflexivity|].
  destruct (N.eqb_spec c 34) as [->|N34]; [reflexivity|].
  destruct (N.eqb_spec c 8) as [->|N8]; [reflexivity|].
  destruct (N.eqb_spec c 12) as [->|N12]; [reflexivity|].
  destruct (N.eqb_spec c 10) as [->|N10]; [reflexivity|].
  destruct (N.eqb_spec c 13) as [->|N13]; [reflexivity|].
  destruct (N.eqb_spec c 9) as [->|N9]; [reflexivity|].
  destruct ((32 <=? c) && (c <=? 126))%N eqn:P.
  - apply (run_plain [c] buf stack rest). cbn [forallb].
    unfold json.is_plain. rewrite P.
    apply N.eqb_neq in N92, N34. rewrite N92, N34. reflexivity.
  - assert (B : forall hs,
               json.step (json.MString buf hs json.SChars, stack) 92%N
               = Some (json.MString buf hs json.SEsc, stack)) by reflexivity.
    destruct (N.ltb_spec c 0x10000) as [Hlt|Hge].
    + cbn [app json.run]. rewrite B, <- app_assoc, run_u_escape by assumption.
      unfold json.escape_done. unfold json.is_high_surrogate.
      replace ((0xd800 <=? c) && (c <=? 0xdbff))%N with false; [reflexivity|].
      symmetry. apply andb_false_iff. apply andb_false_iff in Hsur.
      destruct Hsur as [Hl|Hh]; [left; exact Hl|right].
      apply N.leb_gt. apply N.leb_gt in Hh. lia.
    + destruct (surrogate_halves c ltac:(lia)) as (L1 & L2 & H1 & H2 & J).
      cbv zeta in L1, L2, H1, H2, J. cbv zeta.
      cbn [app json.run]. rewrite B. rewrite <- !app_assoc.
      rewrite run_u_escape by assumption.
      unfold json.escape_done at 1. rewrite H1.
      cbn [app json.run]. rewrite B, <- app_assoc.
      rewrite run_u_escape by assumption.
      unfold json.escape_done. rewrite H2, J. reflexivity.
Qed.

Lemma run_escaped (s : str) (buf : str) (stack : list json.frame) (rest : str) :
  forallb is_scalar s = true ->
  json.run (json.MString buf None json.SChars, stack)
    (flat_map json.escape_char s ++ rest)
  = json.run (json.MString (buf ++ s) None json.SChars, stack) rest.
Proof.
  revert buf. induction s as [|c s IH]; intros buf H.
  - rewrite app_nil_r. reflexivity.
  - cbn [forallb] in H. apply andb_prop in H as [Hc Hs].
    cbn [flat_map]. rewrite <- app_assoc, run_escape_char by assumption.
    rewrite IH by assumption. rewrite <- app_assoc. reflexivity.
Qed.

(** A string written by the encoder is read by the decoder up to its
    closing quote, and is then complete. *)
Lemma run_encoded_string (s : str) (stack : list json.frame) (rest : str) :
  forallb is_scalar s = true ->
  json.run (json.MString [] None json.SChars, stack)
    (flat_map json.escape_char s ++ c_quote :: rest)
  = match json.end_string s stack with
    | Some st => json.run st rest
    | None => None
    end.
Proof.
  intros H. rewrite run_escaped by assumption. reflexivity.
Qed.

(** X8: a string survives the round trip through [json.dumps] and
    [json.loads], whatever characters it holds (quotes, backslashes,
    control characters, non-ASCII ones, characters beyond the basic plane),
    as long as it holds no lone surrogate. *)
Theorem loads_dumps_str (s : str) :
  forallb is_scalar s = true ->
  json.loads (json.dumps (PyStr s)) = Some (PyStr s).
Proof.
  intros H. unfold json.loads. cbn [json.dumps].
  unfold json.encode_basestring_ascii.
  change (json.run (json.MValue false, [])
            (c_quote :: flat_map json.escape_char s ++ [c_quote]))
    with (json.run (json.MString [] None json.SChars, [])
            (flat_map json.escape_char s ++ c_quote :: [])).
  rewrite run_encoded_string by assumption. reflexivity.
Qed.

Lemma loads_dumps_str_witness :
  forallb is_scalar mixed_string = true
  /\ json.loads (json.dumps (PyStr mixed_string)) = Some (PyStr mixed_string).
Proof.
  split; [reflexivity|]. apply (loads_dumps_str mixed_string). reflexivity.
Defined.

(** The encoder writes the two halves of a surrogate pair as they are; the
    decoder joins them: such a string does not come back as it was. *)
Example surrogate_pair_is_joined :
  json.loads (json.dumps (PyStr [0xd83d; 0xde00]%N)) = Some (PyStr [0x1f600]%N).
Proof. reflexivity. Qed.

(** ** Nested values through the encoder and the decoder *)

Lemma pyval_nested_ind (P : pyval -> Prop) :
  P PyNone ->
  (forall b, P (PyBool b)) ->
  (forall n, P (PyInt n)) ->
  (forall lexeme, P (PyFloat lexeme)) ->
  (forall s, P (PyStr s)) ->
  (forall items, Forall P items -> P (PyList items)) ->
  (forall pairs, Forall (fun kv => P (snd kv)) pairs -> P (PyDict pairs)) ->
  forall v, P v.
Proof.
  intros HNone HBool HInt HFloat HStr HList HDict.
  fix IH 1. intros [ |b|n|lexeme|s|items|pairs].
  - exact HNone.
  - apply HBool.
  - apply HInt.
  - apply HFloat.
  - apply HStr.
  - apply HList. induction items as [|x items IHitems]; constructor.
    + apply IH.
    + exact IHitems.
  - apply HDict. induction pairs as [|[k x] pairs IHpairs]; constructor.
    + apply IH.
    + exact IHpairs.
Qed.

Lemma join_cons2 (sep x y : str) (l : list str) :
  join sep (x :: y :: l) = x ++ sep ++ join sep (y :: l).
Proof. reflexivity. Qed.

Lemma dict_set_fresh {V} (d : list (str * V)) (k : str) (v : V) :
  forallb (fun k' => negb (str_eqb k' k)) (keys d) = true ->
  dict_set d k v = d ++ [(k, v)].
Proof.
  induction d as [|[k' v'] d IH]; intros H; [reflexivity|].
  cbn [keys map fst forallb] in H. apply andb_prop in H as [Hk Hd].
  apply negb_true_iff in Hk. cbn [dict_set app]. rewrite Hk.
  rewrite IH by exact Hd. reflexivity.
Qed.

Lemma decodes_items (stack : list json.frame) (rest : str) (items : list pyval) :
  Forall decodes_in_place items ->
  items <> [] ->
  forall (may_close : bool) (done : list pyval),
    json.run (json.MValue may_close, json.FArr done :: stack)
      (join (lit ", ") (map json.dumps items) ++ lit "]" ++ rest)
    = match json.deliver (PyList (done ++ items)) stack with
      | Some st => json.run st rest
      | None => None
      end.
Proof.
  induction 1 as [|x items Hx Hitems IH]; intros Hne mc done; [congruence|].
  destruct items as [|y items].
  - cbn [map join]. rewrite (Hx mc (json.FArr done :: stack)) by exact I.
    reflexivity.
  - cbn [map]. rewrite join_cons2, <- !app_assoc.
    rewrite (Hx mc (json.FArr done :: stack)) by exact I.
    cbn [json.deliver].
    change (json.run (json.MAfter, json.FArr (done ++ [x]) :: stack)
              (lit ", " ++ join (lit ", ") (json.dumps y :: map json.dumps items)
                 ++ lit "]" ++ rest))
      with (json.run (json.MValue false, json.FArr (done ++ [x]) :: stack)
              (join (lit ", ") (map json.dumps (y :: items)) ++ lit "]" ++ rest)).
    rewrite IH by discriminate. rewrite <- app_assoc. reflexivity.
Qed.

Lemma decodes_pairs (stack : list json.frame) (rest : str)
    (pairs : list (str * pyval)) :
  Forall (fun kv => decodes_in_place (snd kv)) pairs ->
  pairs <> [] ->
  forall (may_close : bool) (done : list (str * pyval)),
    forallb (fun kv => forallb is_scalar (fst kv)) pairs = true ->
    distinct (keys pairs) = true ->
    forallb (fun k' => negb (existsb (str_eqb k') (keys pairs))) (keys done)
      = true ->
    json.run (json.MKey may_close, json.FObjK done :: stack)
      (join (lit ", ")
         (map (fun kv => json.encode_basestring_ascii (fst kv)
                           ++ lit ": " ++ json.dumps (snd kv)) pairs)
         ++ lit "}" ++ rest)
    = match json.deliver (PyDict (done ++ pairs)) stack with
      | Some st => json.run st rest
      | None => None
      end.
Proof.
  induction 1 as [|[k x] pairs Hx Hpairs IH];
    intros Hne mc done Hsc Hdis Hdone; [congruence|].
  cbn [snd] in Hx.
  cbn [forallb fst] in Hsc. apply andb_prop in Hsc as [Hk Hsc].
  cbn [keys map fst distinct] in Hdis. apply andb_prop in Hdis as [Hfresh Hdis].
  apply negb_true_iff in Hfresh.
  assert (Fk : forallb (fun k' => negb (str_eqb k' k)) (keys done) = true).
  { apply forallb_forall. intros k' Hin.
    apply (proj1 (forallb_forall _ _) Hdone) in Hin.
    cbn [keys map fst existsb] in Hin. apply negb_true_iff in Hin.
    apply orb_false_iff in Hin as [Hin _]. rewrite Hin. reflexivity. }
  assert (Key : forall tail,
            json.run (json.MKey mc, json.FObjK done :: stack)
              ((json.encode_basestring_ascii k ++ lit ": " ++ json.dumps x) ++ tail)
            = json.run (json.MAfter, json.FObjK (done ++ [(k, x)]) :: stack) tail).
  { intros tail. unfold json.encode_basestring_ascii.
    rewrite <- !app_assoc. cbn [app]. rewrite <- !app_assoc.
    change (json.run (json.MKey mc, json.FObjK done :: stack)
              (c_quote :: flat_map json.escape_char k ++ [c_quote]
                 ++ lit ": " ++ json.dumps x ++ tail))
      with (json.run (json.MString [] None json.SChars, json.FObjK done :: stack)
              (flat_map json.escape_char k
                 ++ c_quote :: lit ": " ++ json.dumps x ++ tail)).
    rewrite run_encoded_string by exact Hk. cbn [json.end_string].
    change (json.run (json.MColon, json.FObjV done k :: stack)
              (lit ": " ++ json.dumps x ++ tail))
      with (json.run (json.MValue false, json.FObjV done k :: stack)
              (json.dumps x ++ tail)).
    rewrite (Hx false (json.FObjV done k :: stack)) by exact I.
    cbn [json.deliver]. rewrite (dict_set_fresh done k x Fk). reflexivity. }
  destruct pairs as [|[k2 x2] pairs].
  - cbn [map join fst snd]. rewrite Key. reflexivity.
  - set (enc := fun kv : str * pyval =>
                  json.encode_basestring_ascii (fst kv)
                    ++ lit ": " ++ json.dumps (snd kv)) in *.
    change (map enc ((k, x) :: (k2, x2) :: pairs))
      with (enc (k, x) :: enc (k2, x2) :: map enc pairs).
    rewrite join_cons2.
    change (enc (k2, x2) :: map enc pairs) with (map enc ((k2, x2) :: pairs)).
    rewrite <- !app_assoc.
    change (enc (k, x))
      with (json.encode_basestring_ascii k ++ lit ": " ++ json.dumps x).
    rewrite Key.
    match goal with
    | |- json.run _ (lit ", " ++ ?t) = _ =>
        change (json.run (json.MAfter, json.FObjK (done ++ [(k, x)]) :: stack)
                  (lit ", " ++ t))
          with (json.run (json.MKey false, json.FObjK (done ++ [(k, x)]) :: stack) t)
    end.
    rewrite (IH ltac:(discriminate) false (done ++ [(k, x)]) Hsc Hdis).
    + rewrite <- app_assoc. reflexivity.
    + unfold keys in *. rewrite map_app, forallb_app.
      apply andb_true_intro. split.
      * apply forallb_forall. intros k' Hin.
        apply (proj1 (forallb_forall _ _) Hdone) in Hin.
        cbn [map fst existsb] in Hin. apply negb_true_iff in Hin.
        apply orb_false_iff in Hin as [_ Hin].
        apply negb_true_iff. cbn [map fst]. exact Hin.
      * cbn [map fst forallb existsb] in Hfresh |- *. rewrite Hfresh.
        reflexivity.
Qed.

Lemma text_tree_decodes (v : pyval) : text_tree v = true -> decodes_in_place v.
Proof.
  induction v as [ |b|n|lexeme|s|items IH|pairs IH] using pyval_nested_ind;
    intros Hv mc stack rest Hstack.
  - reflexivity.
  - destruct b; reflexivity.
  - discriminate Hv.
  - discriminate Hv.
  - cbn [text_tree] in Hv. cbn [json.dumps].
    unfold json.encode_basestring_ascii.
    cbn [app]. rewrite <- app_assoc.
    change (json.run (json.MValue mc, stack)
              (c_quote :: flat_map json.escape_char s ++ [c_quote] ++ rest))
      with (json.run (json.MString [] None json.SChars, stack)
              (flat_map json.escape_char s ++ c_quote :: rest)).
    rewrite run_encoded_string by exact Hv.
    destruct stack as [|[done|done|done key] up];
      [reflexivity|reflexivity|contradiction|reflexivity].
  - cbn [text_tree] in Hv. cbn [json.dumps]. rewrite <- !app_assoc.
    change (json.run (json.MValue mc, stack)
              (lit "[" ++ join (lit ", ") (map json.dumps items)
                 ++ lit "]" ++ rest))
      with (json.run (json.MValue true, json.FArr [] :: stack)
              (join (lit ", ") (map json.dumps items) ++ lit "]" ++ rest)).
    destruct items as [|x items]; [reflexivity|].
    apply (decodes_items stack rest (x :: items)); [|discriminate].
    apply Forall_forall. intros y Hy.
    apply (proj1 (Forall_forall _ _) IH y Hy).
    apply (proj1 (forallb_forall _ _) Hv y Hy).
  - cbn [text_tree] in Hv. apply andb_prop in Hv as [Hall Hdis].
    cbn [json.dumps]. rewrite <- !app_assoc.
    match goal with
    | |- json.run _ (lit "{" ++ ?t) = _ =>
        change (json.run (json.MValue mc, stack) (lit "{" ++ t))
          with (json.run (json.MKey true, json.FObjK [] :: stack) t)
    end.
    destruct pairs as [|kv pairs]; [reflexivity|].
    apply (decodes_pairs stack rest (kv :: pairs)).
    + apply Forall_forall. intros p Hp.
      apply (proj1 (Forall_forall _ _) IH p Hp).
      apply (proj1 (forallb_forall _ _) Hall) in Hp.
      apply andb_prop in Hp as [_ Hp]. exact Hp.
    + discriminate.
    + apply forallb_forall. intros p Hp.
      apply (proj1 (forallb_forall _ _) Hall) in Hp.
      apply andb_prop in Hp as [Hp _]. exact Hp.
    + exact Hdis.
    + reflexivity.
Qed.

(** X9: any value made of strings, booleans and [None], nested in lists
    and in dictionaries with distinct keys, comes back unchanged from
    [json.loads (json.dumps v)]: same structure, same order of the keys,
    same strings. *)
Theorem loads_dumps_text_tree (v : pyval) :
  text_tree v = true -> json.loads (json.dumps v) = Some v.
Proof.
  intros Hv. unfold json.loads.
  rewrite <- (app_nil_r (json.dumps v)).
  rewrite (text_tree_decodes v Hv false [] [] I). reflexivity.
Qed.

Lemma loads_dumps_text_tree_witness :
  text_tree (PyDict [(mixed_string,
                      PyList [PyNone; PyBool true; PyStr mixed_string;
                              PyDict []; PyList []]);
                     (lit "k", PyDict [(lit "k", PyBool false)])]) = true
  /\ json.loads
       (json.dumps
          (PyDict [(mixed_string,
                    PyList [PyNone; PyBool true; PyStr mixed_string;
                            PyDict []; PyList []]);
                   (lit "k", PyDict [(lit "k", PyBool false)])]))
     = Some (PyDict [(mixed_string,
                      PyList [PyNone; PyBool true; PyStr mixed_string;
                              PyDict []; PyList []]);
                     (lit "k", PyDict [(lit "k", PyBool false)])]).
Proof.
  split; [reflexivity|].
  apply (loads_dumps_text_tree
           (PyDict [(mixed_string,
                     PyList [PyNone; PyBool true; PyStr mixed_string;
                             PyDict []; PyList []]);
                    (lit "k", PyDict [(lit "k", PyBool false)])])).
  reflexivity.
Defined.

(** ** A reply that breaks off *)

Lemma forallb_firstn {A} (f : A -> bool) (n : nat) (l : list A) :
  forallb f l = true -> forallb f (firstn n l) = true.
Proof.
  revert n. induction l as [|x l IH]; intros [|n] H; try reflexivity.
  cbn [forallb firstn] in *. apply andb_prop in H as [Hx Hl].
  rewrite Hx, (IH n Hl). reflexivity.
Qed.

Lemma loads_truncated (uid : str) (n : nat) :
  forallb json.is_plain uid = true ->
  length uid = 36%nat ->
  (n < 221)%nat ->
  json.loads (firstn n (body_prefix ++ uid ++ body_suffix)) = None.
Proof.
  intros Hp Hl Hn.
  assert (LP : length body_prefix = 182%nat) by reflexivity.
  assert (Run : forall text,
            json.loads (body_prefix ++ text)
            = match json.run (json.MString [] None json.SChars,
                              [json.FObjV
                                 [(lit "name", PyStr (lit "clusterName"));
                                  (lit "platformType", PyStr (lit "Docker"));
                                  (lit "agentsList", PyList [PyStr (lit "agent1")]);
                                  (lit "domainName", PyStr (lit "example.org"));
                                  (lit "creationTime",
                                   PyStr (lit "Feb 08 2023 21:02:10"));
                                  (lit "managedBy", PyStr [])]
                                 (lit "uid");
                               json.FObjV [] (lit "cluster")]) text with
              | Some st => json.finish st
              | None => None
              end).
  { intros text. unfold json.loads. rewrite run_app.
    match goal with
    | |- context [json.run ?st body_prefix] =>
        let r := eval vm_compute in (json.run st body_prefix) in
        change (json.run st body_prefix) with r
    end.
    reflexivity. }
  rewrite firstn_app, LP.
  destruct (Nat.le_gt_cases n 182) as [Hle|Hgt].
  - replace (n - 182)%nat with 0%nat by lia. cbn [firstn]. rewrite app_nil_r.
    assert (C : forallb
                  (fun k => match json.loads (firstn k body_prefix) with
                            | None => true
                            | Some _ => false
                            end) (seq 0 183) = true)
      by (vm_compute; reflexivity).
    pose proof (proj1 (forallb_forall _ _) C n) as Cn. cbv beta in Cn.
    destruct (json.loads (firstn n body_prefix)); [|reflexivity].
    assert (In n (seq 0 183)) by (apply in_seq; lia).
    specialize (Cn H). discriminate Cn.
  - rewrite firstn_all2 by lia. rewrite firstn_app, Hl, Run.
    destruct (Nat.le_gt_cases (n - 182) 36) as [Hle|Hgt2].
    + replace (n - 182 - 36)%nat with 0%nat by lia. cbn [firstn].
      rewrite (run_plain (firstn (n - 182) uid) [] _ [])
        by (apply forallb_firstn; exact Hp).
      reflexivity.
    + rewrite firstn_all2 by lia.
      rewrite (run_plain uid [] _ _ Hp). cbn [app].
      assert (E : (n - 182 - 36 = 1 \/ n - 182 - 36 = 2)%nat) by lia.
      destruct E as [E|E]; rewrite E; reflexivity.
Qed.

(** X10: a reply that is the echoed request text cut short, at any point
    and with any status code, is never taken for JSON: the run ends with
    the uncaught decoding error. *)
Theorem truncated_echo_raises (w : world) (status : Z) (n : nat) :
  (n < 221)%nat ->
  endpoint w (sent_request w)
    = Replied status (firstn n (req_body (sent_request w))) ->
  outcome w = Raise JSONDecodeError
  /\ stdout (trace w) = [PyStr (req_body (sent_request w)); PyInt status].
Proof.
  intros Hn E.
  assert (L : json.loads (firstn n (req_body (sent_request w))) = None).
  { cbn [sent_request req_body]. unfold payload.
    rewrite (dumps_cluster_definition _ (cluster_uid_plain w)).
    apply loads_truncated;
      [apply cluster_uid_plain|apply cluster_uid_length|exact Hn]. }
  unfold outcome, trace. rewrite (run_reply_not_json w status _ E L).
  split; reflexivity.
Qed.

Lemma truncated_echo_raises_witness :
  (100 < 221)%nat
  /\ endpoint cut_world (sent_request cut_world)
     = Replied 200 (firstn 100 (req_body (sent_request cut_world)))
  /\ outcome cut_world = Raise JSONDecodeError
  /\ stdout (trace cut_world)
     = [PyStr (req_body (sent_request cut_world)); PyInt 200].
Proof.
  assert (H : (100 < 221)%nat) by lia.
  split; [exact H|]. split; [reflexivity|].
  apply (truncated_echo_raises cut_world 200 100 H). reflexivity.
Defined.
